(** * GenerateFragments: a shallow embedding of [src/GenerateFragments.ts]

    The development follows the TypeScript source function by function:
    the string helpers it relies on ([join], [split], [replace], [indexOf],
    [startsWith]), the parsed schema as the code reads it, [printField],
    [generateFragments], [makeFragments] and [processFragments].  Code that
    may raise a JavaScript exception returns a [result]. *)

From Stdlib Require Import String Ascii List Bool Arith Lia Permutation.
Import ListNotations.
Open Scope string_scope.

(** ** Exceptions *)

Inductive error : Type :=
| TypeError        (* property access on undefined/null, Object.keys(undefined) *)
| SyntaxError.     (* RegExp constructor on an invalid pattern *)

Inductive result (A : Type) : Type :=
| Ok (a : A)
| Throw (e : error).
Arguments Ok {A} a.
Arguments Throw {A} e.

Definition bind {A B : Type} (r : result A) (k : A -> result B) : result B :=
  match r with
  | Ok a => k a
  | Throw e => Throw e
  end.

Notation "x <- c1 ;; c2" := (bind c1 (fun x => c2))
  (at level 61, c1 at next level, right associativity).

(** [Array.prototype.map] with a callback that may throw: elements are
    visited left to right and the first exception aborts the loop. *)
Fixpoint mapR {A B : Type} (f : A -> result B) (l : list A) : result (list B) :=
  match l with
  | [] => Ok []
  | a :: l' => b <- f a ;; bs <- mapR f l' ;; Ok (b :: bs)
  end.

(** [Array.prototype.filter] with a callback that may throw. *)
Fixpoint filterR {A : Type} (f : A -> result bool) (l : list A) : result (list A) :=
  match l with
  | [] => Ok []
  | a :: l' =>
      keep <- f a ;; rest <- filterR f l' ;;
      Ok (if keep then a :: rest else rest)
  end.

(** A [for] loop threading one mutable variable through a throwing body. *)
Fixpoint foldR {A S : Type} (f : S -> A -> result S) (l : list A) (s : S) : result S :=
  match l with
  | [] => Ok s
  | a :: l' => s' <- f s a ;; foldR f l' s'
  end.

(** ** Strings *)

Module Str.

Definition nl : string := String (ascii_of_nat 10) EmptyString.
Definition dquote : string := String (ascii_of_nat 34) EmptyString.

(** [arr.join(sep)] *)
Fixpoint join (sep : string) (l : list string) : string :=
  match l with
  | [] => EmptyString
  | [x] => x
  | x :: l' => x ++ sep ++ join sep l'
  end.

(** [s.startsWith(p)] *)
Fixpoint startsWith (p s : string) : bool :=
  match p with
  | EmptyString => true
  | String a p' =>
      match s with
      | EmptyString => false
      | String b s' => Ascii.eqb a b && startsWith p' s'
      end
  end.

(** [s.indexOf(p) !== -1] *)
Fixpoint includes (p s : string) : bool :=
  startsWith p s ||
  match s with
  | EmptyString => false
  | String _ s' => includes p s'
  end.

(** [s.split(c)] for a one-character separator: never the empty array. *)
Fixpoint split (c : ascii) (s : string) : list string :=
  match s with
  | EmptyString => [EmptyString]
  | String a s' =>
      if Ascii.eqb a c then EmptyString :: split c s'
      else match split c s' with
           | [] => [String a EmptyString]
           | w :: ws => String a w :: ws
           end
  end.

(** [s.replace(/pat/g, rep)] for a pattern without metacharacters and a
    replacement without [$]: the leftmost occurrence is replaced and the
    scan resumes after it.  [skip] counts the characters of the current
    match that are still to be consumed. *)
Fixpoint replaceFrom (pat rep : string) (skip : nat) (s : string) : string :=
  match s with
  | EmptyString => EmptyString
  | String a s' =>
      match skip with
      | S k => replaceFrom pat rep k s'
      | O =>
          if startsWith pat s
          then rep ++ replaceFrom pat rep (String.length pat - 1) s'
          else String a (replaceFrom pat rep 0 s')
      end
  end.

Definition replaceAll (pat rep s : string) : string := replaceFrom pat rep 0 s.

(** Characters that stand for themselves inside a regular expression and
    inside a replacement string: [_0-9A-Za-z]. *)
Definition isWordChar (a : ascii) : bool :=
  let n := nat_of_ascii a in
  (((48 <=? n) && (n <=? 57)) || ((65 <=? n) && (n <=? 90))
   || ((97 <=? n) && (n <=? 122)) || (n =? 95))%nat.

Fixpoint allWordChars (s : string) : bool :=
  match s with
  | EmptyString => true
  | String a s' => isWordChar a && allWordChars s'
  end.

End Str.

(** ** The parsed schema

    [makeFragments] works on the [GraphQLSchema] that [buildASTSchema]
    returns.  Only what the code reads is kept: the type map in
    [Object.keys] order, each named type with the name of its constructor
    and its fields in declaration order, each field with the type node of
    its definition ([field.astNode.type], of which [field.type] is the
    resolved mirror image), and the names of the three root types. *)

(** A type node of the schema document: [NamedType], [ListType] and
    [NonNullType] of [graphql/language/ast]. *)
Inductive TypeNode : Type :=
| NamedType (name : string)
| ListType (type : TypeNode)
| NonNullType (type : TypeNode).

(** The constructors of named types. *)
Inductive NamedKind : Type :=
| ScalarKind | ObjectKind | InterfaceKind | UnionKind | EnumKind | InputObjectKind.

(** [type.constructor.name] *)
Definition constructorNameOf (k : NamedKind) : string :=
  match k with
  | ScalarKind => "GraphQLScalarType"
  | ObjectKind => "GraphQLObjectType"
  | InterfaceKind => "GraphQLInterfaceType"
  | UnionKind => "GraphQLUnionType"
  | EnumKind => "GraphQLEnumType"
  | InputObjectKind => "GraphQLInputObjectType"
  end.

Record Field : Type := mkField {
  f_name : string;      (* key in [type.getFields()], also [field.name] *)
  f_type : TypeNode     (* [field.astNode.type] *)
}.

Record TypeDef : Type := mkType {
  t_name : string;
  t_kind : NamedKind;
  t_fields : list Field (* [type.getFields()], empty for other kinds *)
}.

Record Schema : Type := mkSchema {
  typeMap : list TypeDef;              (* [ast.getTypeMap()] *)
  queryType : option string;           (* name of [ast.getQueryType()] *)
  mutationType : option string;        (* name of [ast.getMutationType()] *)
  subscriptionType : option string     (* name of [ast.getSubscriptionType()] *)
}.

(** [ast.getType(name)]; the type map is keyed by type name. *)
Definition getType (ast : Schema) (name : string) : option TypeDef :=
  find (fun t => t_name t =? name) (typeMap ast).

(** [(ast.getType(name) as GraphQLNamedType).constructor.name] *)
Definition getTypeConstructorName (ast : Schema) (name : string) : result string :=
  match getType ast name with
  | Some t => Ok (constructorNameOf (t_kind t))
  | None => Throw TypeError
  end.

(** [.type] of a type node; [undefined] on a [NamedType]. *)
Definition node_type (n : TypeNode) : option TypeNode :=
  match n with
  | NamedType _ => None
  | ListType t => Some t
  | NonNullType t => Some t
  end.

(** [.name.value] of a type node; [.name] is [undefined] on wrappers.
    Names of the schema language are never empty, so a present name is
    truthy. *)
Definition node_name (n : TypeNode) : option string :=
  match n with
  | NamedType name => Some name
  | ListType _ => None
  | NonNullType _ => None
  end.

(** [.kind] of a type node. *)
Definition node_kind (n : TypeNode) : string :=
  match n with
  | NamedType _ => "NamedType"
  | ListType _ => "ListType"
  | NonNullType _ => "NonNullType"
  end.

(** [field.type.constructor.name] for the resolved type of a field.  In a
    built schema every named reference resolves to a type of the map. *)
Definition typeConstructorName (ast : Schema) (t : TypeNode) : result string :=
  match t with
  | NamedType name => getTypeConstructorName ast name
  | ListType _ => Ok "GraphQLList"
  | NonNullType _ => Ok "GraphQLNonNull"
  end.

(** ** Fragments and tier configuration *)

Record Fragment : Type := mkFragment {
  name : string;
  fragment : string
}.

(** [ModelConfig]: tier label to allow-list; [Record<string, ModelConfig>]:
    type name to [ModelConfig].  An object is the list of its own entries
    in [Object.keys] order; the keys of an object are distinct. *)
Definition ModelConfig : Type := list (string * list string).
Definition ModelConfigs : Type := list (string * ModelConfig).

(** Property names every object inherits from [Object.prototype].  The
    accessors whose names start with two underscores are left out: type
    names with that prefix never reach the lookup. *)
Definition objectPrototypeKeys : list string :=
  ["constructor"; "hasOwnProperty"; "isPrototypeOf"; "propertyIsEnumerable";
   "toLocaleString"; "toString"; "valueOf"].

Inductive Property : Type :=
| Own (c : ModelConfig)   (* an entry of the configuration file *)
| Inherited               (* a function of [Object.prototype]: truthy, no own keys *)
| Missing.                (* [undefined] *)

Fixpoint ownProperty {V : Type} (o : list (string * V)) (key : string) : option V :=
  match o with
  | [] => None
  | (k, v) :: o' => if k =? key then Some v else ownProperty o' key
  end.

(** [modelConfigs[name]] *)
Definition getModelConfig (modelConfigs : ModelConfigs) (key : string) : Property :=
  match ownProperty modelConfigs key with
  | Some c => Own c
  | None => if existsb (String.eqb key) objectPrototypeKeys then Inherited else Missing
  end.

(** [Object.keys(o)] on an object that may be [undefined]. *)
Definition objectKeys {V : Type} (o : option (list (string * V))) : result (list string) :=
  match o with
  | Some entries => Ok (map fst entries)
  | None => Throw TypeError
  end.

(** ** What the host engine decides

    Two steps of [makeFragments] are left to the JavaScript engine.  The
    comparator given to [sort] answers [1] for every pair (all names it
    compares belong to object types), so the order of the result is
    implementation-defined: it is some permutation.  A [RegExp] built from
    a configuration key that holds characters outside [_0-9A-Za-z] is
    interpreted by the engine's pattern compiler, which may also reject
    it. *)
Record Engine : Type := mkEngine {
  sortTypeNames : list string -> list string;
  sortTypeNames_perm : forall l, Permutation l (sortTypeNames l);
  regexpReplace : string -> string -> string -> result string
}.

(** ** [GenerateFragments] *)

(** [indentedLine(level)] *)
Fixpoint indentedLine (level : nat) : string :=
  match level with
  | O => Str.nl
  | S l => indentedLine l ++ "  "
  end.

(** [this.fragmentType] *)
Module fragmentType.
Definition DEFAULT : string := EmptyString.
Definition NO_RELATIONS : string := "NoNesting".
Definition DEEP : string := "DeepNesting".
End fragmentType.

(** The variable [field] of [printField]: the field object it is called
    with, or the AST node it is reassigned to. *)
Inductive FieldVar : Type :=
| FieldObject (f : Field)
| AstNode (n : TypeNode).

(** [field.kind]: [undefined] on a field object. *)
Definition field_kind (v : FieldVar) : option string :=
  match v with
  | FieldObject _ => None
  | AstNode n => Some (node_kind n)
  end.

(** [(x.name && (ast.getType(x.name.value) as GraphQLNamedType).constructor.name) || null]
    where [x] is [field.type], possibly [undefined]. *)
Definition namedConstructorOrNull (ast : Schema) (x : option TypeNode)
  : result (option string) :=
  match x with
  | None => Throw TypeError
  | Some n =>
      match node_name n with
      | Some name => c <- getTypeConstructorName ast name ;; Ok (Some c)
      | None => Ok None
      end
  end.

(** Lines 458-467: the [GraphQLList] branch.  The node under a list node
    is never falsy, so [field] is never [null] and the [throw] of line 464
    is not reached. *)
Definition unwrapList (ast : Schema) (f : Field) (constructorName : string)
  : result (FieldVar * option string) :=
  if constructorName =? "GraphQLList" then
    match node_type (f_type f) with
    | None => Throw TypeError
    | Some inner =>
        let field := match node_type inner with
                     | Some inner2 => inner2
                     | None => inner
                     end in
        match node_name field with
        | None => Throw TypeError
        | Some name =>
            c <- getTypeConstructorName ast name ;; Ok (AstNode field, Some c)
        end
    end
  else Ok (FieldObject f, Some constructorName).

(** Lines 469-482: the [GraphQLNonNull] branch. *)
Definition unwrapNonNull (ast : Schema) (st : FieldVar * option string)
  : result (FieldVar * option string) :=
  let '(field, constructorName) := st in
  if match constructorName with Some c => c =? "GraphQLNonNull" | None => false end
     || match field_kind field with Some k => k =? "NonNullType" | None => false end
  then
    match field with
    | AstNode _ => Throw TypeError      (* [field.astNode] is undefined *)
    | FieldObject f =>
        let field := f_type f in
        c <- namedConstructorOrNull ast (node_type field) ;;
        match c with
        | Some _ => Ok (AstNode field, c)
        | None =>
            match node_type field with
            | None => Throw TypeError
            | Some field' =>
                c' <- namedConstructorOrNull ast (node_type field') ;;
                Ok (AstNode field', c')
            end
        end
    end
  else Ok st.

(** Lines 495-497: the name of the referenced type. *)
Definition referencedTypeName (field : FieldVar) : result string :=
  match field with
  | FieldObject f =>
      (* [field.name] is a string, [field.type] the named type itself *)
      match node_name (f_type f) with
      | Some name => Ok name
      | None => Throw TypeError
      end
  | AstNode n =>
      match node_name n with
      | Some name => Ok name
      | None =>
          match node_type n with
          | None => Throw TypeError
          | Some inner =>
              match node_name inner with
              | Some name => Ok name
              | None => Throw TypeError
              end
          end
      end
  end.

(** Lines 450-482: the classifier.  It leaves [field] and
    [constructorName] as the rest of [printField] reads them; a
    [constructorName] of [None] is [null]. *)
Definition resolveField (ast : Schema) (f : Field) : result (FieldVar * option string) :=
  c0 <- typeConstructorName ast (f_type f) ;;
  st1 <- unwrapList ast f c0 ;;
  unwrapNonNull ast st1.

(** [printField(fieldName, field, ast, fragmentType, indent)]; [None] is
    the [null] that makes [generateFragments] drop the field.  The branch
    for a constructor named [Object] is left out: the type of a field of a
    built schema is always an instance of one of the GraphQL classes. *)
Definition printField (fieldName : string) (f : Field) (ast : Schema)
    (fragmentType : string) (indent : nat) : result (option string) :=
  resolved <- resolveField ast f ;;
  let '(field, constructorName) := resolved in
  match constructorName with
  | None => Ok None
  | Some c =>
      if (c =? "GraphQLScalarType") || (c =? "GraphQLEnumType") then
        Ok (Some fieldName)
      else if c =? "GraphQLObjectType" then
        if fragmentType =? fragmentType.NO_RELATIONS then Ok None
        else
          typeName <- referencedTypeName field ;;
          Ok (Some (fieldName ++ " {" ++ indentedLine (indent + 1) ++ "..."
                    ++ (if fragmentType =? fragmentType.DEEP
                        then typeName ++ fragmentType.DEEP
                        else if fragmentType =? fragmentType.DEFAULT
                             then typeName ++ fragmentType.NO_RELATIONS
                             else typeName ++ fragmentType.DEFAULT)
                    ++ indentedLine indent ++ "}"))
      else Ok None
  end.

(** [arr.filter(x => x != null)] *)
Fixpoint dropNull {A : Type} (l : list (option A)) : list A :=
  match l with
  | [] => []
  | Some a :: l' => a :: dropNull l'
  | None :: l' => dropNull l'
  end.

(** [generateFragments(type, ast, fragmentType)] *)
Definition generateFragments (type : TypeDef) (ast : Schema) (fragmentType : string)
  : result (list string) :=
  printed <- mapR (fun field => printField (f_name field) field ast fragmentType 1)
                  (t_fields type) ;;
  Ok (dropNull printed).

(** [flatten] *)
Fixpoint flatten {A : Type} (arr : list (option (list A))) : list A :=
  match arr with
  | [] => []
  | None :: arr' => flatten arr'
  | Some sub :: arr' => app sub (flatten arr')
  end.

(** *** [makeFragments] *)

(** Lines 234-262: the names of the types that get fragments. *)
Definition typeNames (E : Engine) (ast : Schema) : result (list string) :=
  let keys := map t_name (typeMap ast) in
  let defined := filter (fun typeName => match getType ast typeName with
                                         | Some _ => true
                                         | None => false
                                         end) keys in
  objects <- filterR (fun typeName =>
                        c <- getTypeConstructorName ast typeName ;;
                        Ok (c =? "GraphQLObjectType")) defined ;;
  let visible := filter (fun typeName => negb (Str.startsWith "__" typeName)) objects in
  notQuery <- filterR (fun typeName =>
                         match queryType ast with
                         | Some q => Ok (negb (typeName =? q))
                         | None => Throw TypeError
                         end) visible ;;
  let notMutation := filter (fun typeName =>
                               match mutationType ast with
                               | Some m => negb (typeName =? m)
                               | None => true
                               end) notQuery in
  let notSubscription := filter (fun typeName =>
                                   match subscriptionType ast with
                                   | Some s => negb (typeName =? s)
                                   | None => true
                                   end) notMutation in
  Ok (sortTypeNames E notSubscription).

(** The body shared by the templates of lines 274-277, 290-295 and 345-347:
    the fields, one per line, between the braces. *)
Definition block (fields : list string) : string :=
  " {" ++ Str.nl ++ "  " ++ Str.join (indentedLine 1) fields ++ Str.nl ++ "}".

(** Lines 266-279, one type. *)
Definition standardFragment (ast : Schema) (typeName : string)
  : result (option Fragment) :=
  match getType ast typeName with
  | None => Throw TypeError
  | Some type =>
      let name := t_name type in
      fields <- generateFragments type ast fragmentType.DEFAULT ;;
      match fields with
      | [] => Ok None
      | _ => Ok (Some (mkFragment name
                 ("fragment " ++ name ++ " on " ++ name ++ block fields ++ Str.nl)))
      end
  end.

(** Lines 281-297, one type. *)
Definition noRelationsFragment (ast : Schema) (typeName : string)
  : result (option Fragment) :=
  match getType ast typeName with
  | None => Throw TypeError
  | Some type =>
      let name := t_name type in
      fields <- generateFragments type ast fragmentType.NO_RELATIONS ;;
      match fields with
      | [] => Ok None
      | _ => Ok (Some (mkFragment name
                 ("fragment " ++ name ++ fragmentType.NO_RELATIONS ++ " on " ++ name
                  ++ block fields ++ Str.nl)))
      end
  end.

(** [fragment.replace(RegExp(`\\.\\.\\.${modelName}DeepNesting`, 'g'),
    `...${modelName}<target>`)].  A key made of word characters gives a
    pattern and a replacement that are taken literally. *)
Definition replaceSpread (E : Engine) (target : string) (fragment modelName : string)
  : result string :=
  if Str.allWordChars modelName then
    Ok (Str.replaceAll ("..." ++ modelName ++ "DeepNesting")
                       ("..." ++ modelName ++ target) fragment)
  else
    regexpReplace E ("\.\.\." ++ modelName ++ "DeepNesting")
                    ("..." ++ modelName ++ target) fragment.

(** Lines 327-331, 333-337 and 348-352: the loop over [modelNames]
    followed by [fragment.replace(/DeepNesting/g, 'Full')]. *)
Definition rewriteDeepNesting (E : Engine) (modelNames : list string)
    (target : string) (fragment : string) : result string :=
  fragment' <- foldR (replaceSpread E target) modelNames fragment ;;
  Ok (Str.replaceAll "DeepNesting" "Full" fragment').

(** Lines 310-322: [spreadFragments]. *)
Definition spreadFragments (name suffix : string) : list string :=
  let push (arr : list string) (x : string) : list string := app arr [x] in
  let s0 : list string := [] in
  let s1 := if suffix =? "Admin" then push s0 ("..." ++ name ++ "AdminListing") else s0 in
  let s2 := if suffix =? "AdminListing" then push s1 ("..." ++ name ++ "PublicListing") else s1 in
  let s3 := if suffix =? "Public" then push s2 ("..." ++ name ++ "PublicListing") else s2 in
  match s3 with
  | [] => s3
  | _ => push s3 EmptyString
  end.

(** [f.split(' ')[0]] *)
Definition firstWord (f : string) : string :=
  match Str.split " "%char f with
  | w :: _ => w
  | [] => EmptyString
  end.

(** [allowlist.indexOf(x) !== -1] *)
Definition allowed (allowlist : list string) (x : string) : bool :=
  existsb (String.eqb x) allowlist.

(** Lines 308-343, one tier of one type. *)
Definition tierFragment (E : Engine) (modelNames : list string) (name : string)
    (fields : list string) (tier : string * list string) : result Fragment :=
  let '(suffix, allowlist) := tier in
  let fragment :=
    "fragment " ++ name ++ suffix ++ " on " ++ name ++ " {" ++ Str.nl ++ "  "
    ++ Str.join (indentedLine 1) (spreadFragments name suffix)
    ++ Str.join (indentedLine 1) (filter (fun f => allowed allowlist (firstWord f)) fields)
    ++ Str.nl ++ "}" in
  fragment' <- rewriteDeepNesting E modelNames
                 (if negb (Str.includes "Admin" suffix) then "PublicListing"
                  else "AdminListing") fragment ;;
  Ok (mkFragment (name ++ suffix) fragment').

(** Lines 299-358, one type. *)
Definition deepFragmentsOf (E : Engine) (ast : Schema)
    (modelConfigs : option ModelConfigs) (modelNames : list string)
    (typeName : string) : result (option (list Fragment)) :=
  match getType ast typeName with
  | None => Throw TypeError
  | Some type =>
      let name := t_name type in
      fields <- generateFragments type ast fragmentType.DEEP ;;
      match fields with
      | [] => Ok None
      | _ =>
          match match modelConfigs with
                | Some configs => getModelConfig configs name
                | None => Missing
                end with
          | Own tiers =>
              frags <- mapR (tierFragment E modelNames name fields) tiers ;;
              Ok (Some frags)
          | Inherited => Ok (Some [])
          | Missing =>
              fragment <- rewriteDeepNesting E modelNames "PublicListing"
                            ("fragment " ++ name ++ "Full on " ++ name ++ block fields) ;;
              Ok (Some [mkFragment (name ++ "Full") fragment])
          end
      end
  end.

(** Lines 234-358: the three lists of fragments. *)
Definition collectFragments (E : Engine) (ast : Schema)
    (modelConfigs : option ModelConfigs)
  : result (list Fragment * list Fragment * list Fragment) :=
  names <- typeNames E ast ;;
  standard <- mapR (standardFragment ast) names ;;
  noRelations <- mapR (noRelationsFragment ast) names ;;
  modelNames <- objectKeys modelConfigs ;;
  deep <- mapR (deepFragmentsOf E ast modelConfigs modelNames) names ;;
  Ok (dropNull standard, dropNull noRelations, flatten deep).

(** Lines 361-388: the JavaScript module. *)
Definition jsModule (standard noRelations deep : list Fragment) : string :=
  let export (suffix : string) (f : Fragment) : string :=
    Str.nl ++ "export const " ++ name f ++ suffix ++ "Fragment = `" ++ fragment f
    ++ "`" ++ Str.nl in
  "// THIS FILE HAS BEEN AUTO-GENERATED BY " ++ Str.dquote
  ++ "graphql-cli-generate-fragments" ++ Str.dquote ++ Str.nl
  ++ "// DO NOT EDIT THIS FILE DIRECTLY" ++ Str.nl
  ++ Str.join EmptyString (map (export fragmentType.DEFAULT) standard) ++ Str.nl
  ++ Str.join EmptyString (map (export fragmentType.NO_RELATIONS) noRelations) ++ Str.nl
  ++ Str.join EmptyString (map (export fragmentType.DEEP) deep) ++ Str.nl.

(** Lines 392-428: the single GraphQL document. *)
Definition graphqlDocument (standard noRelations deep : list Fragment) : string :=
  let entry (f : Fragment) : string := Str.nl ++ fragment f in
  "# THIS FILE HAS BEEN AUTO-GENERATED BY " ++ Str.dquote
  ++ "graphql-cli-generate-fragments" ++ Str.dquote ++ Str.nl
  ++ "# DO NOT EDIT THIS FILE DIRECTLY" ++ Str.nl
  ++ Str.nl
  ++ "# Standard Fragments" ++ Str.nl
  ++ "# Nested fragments will spread one layer deep" ++ Str.nl
  ++ Str.nl
  ++ Str.join EmptyString (map entry standard) ++ Str.nl
  ++ Str.nl
  ++ "# No Relational objects" ++ Str.nl
  ++ "# No nested fragments" ++ Str.nl
  ++ Str.nl
  ++ Str.join EmptyString (map entry noRelations) ++ Str.nl
  ++ Str.nl
  ++ "# Deeply nested Fragments" ++ Str.nl
  ++ "# Will include n nested fragments" ++ Str.nl
  ++ "# If there is a recursive relation you will receive a" ++ Str.nl
  ++ "# " ++ Str.dquote ++ "Cannot spread fragment within itself" ++ Str.dquote
  ++ " error when using" ++ Str.nl
  ++ Str.nl
  ++ Str.join EmptyString (map entry deep) ++ Str.nl.

(** Lines 361-429: what is returned for a generator. *)
Definition assemble (generator : string)
    (lists : list Fragment * list Fragment * list Fragment) : list Fragment :=
  let '(standard, noRelations, deep) := lists in
  if generator =? "js" then
    [mkFragment "*" (jsModule standard noRelations deep)]
  else if generator =? "multi-file-graphql" then deep
  else [mkFragment "*" (graphqlDocument standard noRelations deep)].

(** [makeFragments(schemaContents, generator, modelConfigs)], on the schema
    built from [schemaContents]. *)
Definition makeFragments (E : Engine) (ast : Schema) (generator : string)
    (modelConfigs : option ModelConfigs) : result (list Fragment) :=
  lists <- collectFragments E ast modelConfigs ;;
  Ok (assemble generator lists).

(** *** [processFragments]

    The project's settings are resolved by collaborators that are not part
    of the generator: [determineGenerator], [determineFragmentsOutputPath]
    (given the extension), the schema file and the tier configuration file.
    Their answers are the arguments here.  The file system is the list of
    the [fs.writeFileSync] calls made, in order. *)

Record GenerateFragmentsExtension : Type := mkExtension {
  output : string;
  generator : string
}.

(** Lines 173-179 *)
Definition extensionFor (generator : string) : string :=
  let extension := "js" in
  let extension := if generator =? "graphql" then "graphql" else extension in
  let extension := if generator =? "multi-file-graphql" then "gql" else extension in
  extension.

(** [outputPath.split('/').slice(0, -1).join('/')] *)
Definition basePathOf (outputPath : string) : string :=
  Str.join "/" (removelast (Str.split "/"%char outputPath)).

Definition processFragments (E : Engine) (generator : string)
    (determineFragmentsOutputPath : string -> string)
    (ast : Schema) (modelConfigs : option ModelConfigs)
  : result (list (string * string) * GenerateFragmentsExtension) :=
  let extension := extensionFor generator in
  let outputPath := determineFragmentsOutputPath extension in
  fragments <- makeFragments E ast generator modelConfigs ;;
  match fragments with
  | first :: _ =>
      if negb (name first =? "*") then
        let basePath := basePathOf outputPath in
        Ok (map (fun f => (basePath ++ "/" ++ name f ++ "." ++ extension, fragment f))
                fragments,
            mkExtension (basePathOf outputPath) generator)
      else
        Ok ([(outputPath, fragment first)], mkExtension outputPath generator)
  | [] =>
      (* [fragments[0].fragment] with [fragments[0]] undefined *)
      Throw TypeError
  end.

(** ** A reference engine

    [sort] leaves the array as it is (what a merge-based sort does when the
    comparator never answers a negative number), and a pattern built from a
    key with other than word characters is rejected.  It serves to evaluate
    the generator on concrete schemas; every configuration used below has
    keys made of word characters, on which all engines agree. *)
Definition refEngine : Engine :=
  mkEngine (fun l => l) (fun l => Permutation_refl l) (fun _ _ _ => Throw SyntaxError).

(** ** Reading aids for the statements below *)

(** The only exception the schema walk can raise is a [TypeError]. *)
Definition onlyTypeError {A : Type} (r : result A) : Prop :=
  forall e, r = Throw e -> e = TypeError.

(** [c] does not occur in [w]. *)
Fixpoint absent (c : ascii) (w : string) : bool :=
  match w with
  | EmptyString => true
  | String a w' => negb (Ascii.eqb a c) && absent c w'
  end.


(** The names that reach the comparison with the query root: object types
    whose name does not start with two underscores (lines 234-243). *)
Definition candidates (ast : Schema) : list string :=
  filter (fun typeName => negb (Str.startsWith "__" typeName))
    (filter (fun typeName =>
               match getType ast typeName with
               | Some t => constructorNameOf (t_kind t) =? "GraphQLObjectType"
               | None => false
               end)
       (map t_name (typeMap ast))).


(** The block lines 499-511 build for a reference to the type [target]. *)
Definition nestedSpread (fieldName target suffix : string) (indent : nat) : string :=
  fieldName ++ " {" ++ indentedLine (indent + 1) ++ "..." ++ (target ++ suffix)
  ++ indentedLine indent ++ "}".

(** Lines 504-508: the suffix of the spread for a fragment type. *)
Definition spreadSuffix (fragmentType : string) : string :=
  if fragmentType =? fragmentType.DEEP then fragmentType.DEEP
  else if fragmentType =? fragmentType.DEFAULT then fragmentType.NO_RELATIONS
  else fragmentType.DEFAULT.

(** ** The tier expansion in the words of the specification

    Section 4.4 of the specification describes a tier fragment by its
    parts.  The definitions of this module follow that description, not
    the code; the code is compared with them below. *)
Module Spec.

(** "[Admin] tier prepends a spread of [<TypeName>AdminListing];
    [AdminListing] and [Public] tiers prepend a spread of
    [<TypeName>PublicListing]; other tiers prepend nothing". *)
Definition leadingSpread (typeName tier : string) : option string :=
  if string_dec tier "Admin" then Some ("..." ++ typeName ++ "AdminListing")
  else if string_dec tier "AdminListing" then Some ("..." ++ typeName ++ "PublicListing")
  else if string_dec tier "Public" then Some ("..." ++ typeName ++ "PublicListing")
  else None.

(** "the field name token, i.e. everything before the first space". *)
Fixpoint leadingIdentifier (f : string) : string :=
  match f with
  | EmptyString => EmptyString
  | String a f' => if Ascii.ascii_dec a " " then EmptyString
                   else String a (leadingIdentifier f')
  end.

(** "the subset of deep fields whose leading identifier appears in that
    tier's allow-list, in the original field order". *)
Definition tierFields (allowlist fields : list string) : list string :=
  filter (fun f => if in_dec string_dec (leadingIdentifier f) allowlist
                   then true else false) fields.

(** The leading spread on a line of its own, then the fields, one per line. *)
Definition tierBody (typeName tier : string) (allowlist fields : list string) : string :=
  match leadingSpread typeName tier with
  | Some spread => spread ++ indentedLine 1
  | None => EmptyString
  end ++ Str.join (indentedLine 1) (tierFields allowlist fields).

Definition tierText (typeName tier : string) (allowlist fields : list string) : string :=
  "fragment " ++ typeName ++ tier ++ " on " ++ typeName ++ " {" ++ Str.nl ++ "  "
  ++ tierBody typeName tier allowlist fields ++ Str.nl ++ "}".

(** "if the tier label contains the substring [Admin], rewrite
    [...<OtherType>DeepNesting] to [...<OtherType>AdminListing]; otherwise
    to [...<OtherType>PublicListing]; then always replace remaining
    [DeepNesting] tokens with [Full]", [<OtherType>] ranging over the types
    of the configuration. *)
Definition rewrite (modelNames : list string) (tier text : string) : string :=
  let target := if Str.includes "Admin" tier then "AdminListing" else "PublicListing" in
  Str.replaceAll "DeepNesting" "Full"
    (fold_left (fun t other =>
                  Str.replaceAll ("..." ++ other ++ "DeepNesting")
                                 ("..." ++ other ++ target) t)
               modelNames text).

End Spec.


(** The classifier resolves the field to a scalar or an enum. *)
Definition isScalarOrEnum (ast : Schema) (f : Field) : bool :=
  match resolveField ast f with
  | Ok (_, Some c) => (c =? "GraphQLScalarType") || (c =? "GraphQLEnumType")
  | _ => false
  end.


(** ** Sample schemas *)

Module Blog.

(** What [buildASTSchema] adds to every type map. *)
Definition builtins : list TypeDef :=
  [ mkType "String" ScalarKind [];
    mkType "Int" ScalarKind [];
    mkType "Boolean" ScalarKind [];
    mkType "ID" ScalarKind [];
    mkType "__Schema" ObjectKind
      [ mkField "types" (NonNullType (ListType (NonNullType (NamedType "__Type")))) ];
    mkType "__Type" ObjectKind [ mkField "name" (NamedType "String") ] ].

(** [type Query { posts: [Post] }]
    [type Post { id: ID!  title: String!  author: User!  comments: [Comment!]! }]
    [type User { id: ID!  role: Role }]
    [type Comment { post: Post }]
    [enum Role { ADMIN USER }] *)
Definition Post : TypeDef :=
  mkType "Post" ObjectKind
    [ mkField "id" (NonNullType (NamedType "ID"));
      mkField "title" (NonNullType (NamedType "String"));
      mkField "author" (NonNullType (NamedType "User"));
      mkField "comments" (NonNullType (ListType (NonNullType (NamedType "Comment")))) ].

Definition User : TypeDef :=
  mkType "User" ObjectKind
    [ mkField "id" (NonNullType (NamedType "ID"));
      mkField "role" (NamedType "Role") ].

Definition Comment : TypeDef :=
  mkType "Comment" ObjectKind [ mkField "post" (NamedType "Post") ].

Definition schema : Schema :=
  mkSchema
    (mkType "Query" ObjectKind [ mkField "posts" (ListType (NamedType "Post")) ]
     :: Post :: User :: Comment :: mkType "Role" EnumKind [] :: builtins)
    (Some "Query") None None.

(** [{ "Post": { "PublicListing": ["id","title"],
                 "Public": ["id","title","author"] } }] *)
Definition tiers : ModelConfigs :=
  [ ("Post", [ ("PublicListing", ["id"; "title"]);
               ("Public", ["id"; "title"; "author"]) ]) ].

(** [{ "User": { "Public": ["id"] } }] *)
Definition userTiers : ModelConfigs := [ ("User", [ ("Public", ["id"]) ]) ].

(** The three lists [makeFragments] builds for this schema and these tiers. *)
Definition tieredLists : list Fragment * list Fragment * list Fragment :=
  Eval vm_compute in
    match collectFragments refEngine schema (Some tiers) with
    | Ok lists => lists
    | Throw _ => ([], [], [])
    end.

End Blog.

(** A schema whose only object type is the query root. *)
Module Bare.

Definition schema : Schema :=
  mkSchema (mkType "Query" ObjectKind [ mkField "version" (NamedType "String") ]
            :: Blog.builtins)
           (Some "Query") None None.

End Bare.

(** A document that declares an enum and nothing else: no root types, and
    no object type besides the introspection types of [builtins]. *)
Module Enums.

Definition schema : Schema :=
  mkSchema (mkType "Role" EnumKind [] :: Blog.builtins) None None None.

End Enums.

(** [type Query { a: A }  type A { id: ID }  type ANoNesting { id: ID }] *)
Module Clash.

Definition schema : Schema :=
  mkSchema (mkType "Query" ObjectKind [ mkField "a" (NamedType "A") ]
            :: mkType "A" ObjectKind [ mkField "id" (NamedType "ID") ]
            :: mkType "ANoNesting" ObjectKind [ mkField "id" (NamedType "ID") ]
            :: Blog.builtins)
           (Some "Query") None None.

End Clash.

(** [type Query { item: Item }]
    [interface Node { id: ID! }   union Hit = Item | Grid]
    [type Item { id: ID!  node: Node  hits: [Hit!]  tags: [String!]! }]
    [type Grid { id: ID!  cells: [[Int!]] }] *)
Module Shapes.

Definition Item : TypeDef :=
  mkType "Item" ObjectKind
    [ mkField "id" (NonNullType (NamedType "ID"));
      mkField "node" (NamedType "Node");
      mkField "hits" (ListType (NonNullType (NamedType "Hit")));
      mkField "tags" (NonNullType (ListType (NonNullType (NamedType "String")))) ].

Definition Grid : TypeDef :=
  mkType "Grid" ObjectKind
    [ mkField "id" (NonNullType (NamedType "ID"));
      mkField "cells" (ListType (ListType (NonNullType (NamedType "Int")))) ].

Definition types (withGrid : bool) : list TypeDef :=
  (mkType "Query" ObjectKind [ mkField "item" (NamedType "Item") ]
   :: mkType "Node" InterfaceKind []
   :: mkType "Hit" UnionKind []
   :: Item
   :: (if withGrid then [Grid] else []) ++ Blog.builtins)%list.

(** The schema without [Grid], and with it. *)
Definition schema : Schema := mkSchema (types false) (Some "Query") None None.
Definition gridSchema : Schema := mkSchema (types true) (Some "Query") None None.

End Shapes.

(** [type Query { thread: Thread }]
    [type Thread { id: ID!  last: Reply }   type Reply { thread: Thread }]
    [type constructor { id: ID! }] *)
Module Forum.

Definition Thread : TypeDef :=
  mkType "Thread" ObjectKind
    [ mkField "id" (NonNullType (NamedType "ID"));
      mkField "last" (NamedType "Reply") ].

Definition Reply : TypeDef :=
  mkType "Reply" ObjectKind [ mkField "thread" (NamedType "Thread") ].

Definition constructor : TypeDef :=
  mkType "constructor" ObjectKind [ mkField "id" (NonNullType (NamedType "ID")) ].

Definition schema : Schema :=
  mkSchema (mkType "Query" ObjectKind [ mkField "thread" (NamedType "Thread") ]
            :: Thread :: Reply :: constructor :: Blog.builtins)
           (Some "Query") None None.

(** The three lists of the run with the empty configuration object. *)
Definition lists : list Fragment * list Fragment * list Fragment :=
  Eval vm_compute in
    match collectFragments refEngine schema (Some []) with
    | Ok l => l
    | Throw _ => ([], [], [])
    end.

End Forum.

(** ** Resolving the input schema

    [determineInputSchema] reads the project configuration through
    [has]/[get] and the file system through [fs.existsSync]; it echoes the
    path it settled on with [console.log] before it validates it. *)
Module Resolve.

(** A call that returns or throws [new Error(message)]. *)
Inductive outcome (A : Type) : Type :=
| Returns (a : A)
| Raises (message : string).
Arguments Returns {A} a.
Arguments Raises {A} message.

(** What the resolution reads of [this.project]: a path of the
    configuration is [None] when [has] answers [false]. *)
Record Project : Type := mkProject {
  prepare_bundle_output : option string;  (* extensions.prepare-bundle.output *)
  bundle_output : option string;          (* extensions.bundle.output *)
  schemaPath : option string              (* this.project.schemaPath *)
}.

(** [str => str.split('.').pop()] *)
Definition getExtension (str : string) : string :=
  last (Str.split "."%char str) EmptyString.

(** Lines 544-559: the path to use, when one can be determined.  A path
    that is [undefined] or empty is falsy. *)
Definition chooseSchemaPath (project : Project) (schemaPath : option string)
  : outcome string :=
  match schemaPath with
  | Some (String a path) => Returns (String a path)
  | _ =>
      match prepare_bundle_output project with
      | Some p => Returns p
      | None =>
          match bundle_output project with
          | Some p => Returns p
          | None =>
              match Resolve.schemaPath project with
              | Some (String a path) => Returns (String a path)
              | _ => Raises "Input schema cannot be determined."
              end
          end
      end
  end.

(** [determineInputSchema(schemaPath)]: the lines written by [console.log]
    and the outcome. *)
Definition determineInputSchema (existsSync : string -> bool) (project : Project)
    (schemaPath : option string) : list string * outcome string :=
  match chooseSchemaPath project schemaPath with
  | Raises message => ([], Raises message)
  | Returns path =>
      ([path],
       if negb (getExtension path =? "graphql") && negb (getExtension path =? "gql")
       then Raises ("Schema has an extension of '." ++ getExtension path ++ "'"
                    ++ Str.nl
                    ++ "- Only '.graphql' schema's are supported by 'generate-fragments'.")
       else if existsSync path then Returns path
       else Raises ("Schema '" ++ path ++ "' not found."
                    ++ match prepare_bundle_output project with
                       | Some _ => " Did you run bundle/get-schema first?"
                       | None => EmptyString
                       end))
  end.

End Resolve.

(** ** More reading aids *)

(** [n] spaces. *)
Fixpoint spaces (n : nat) : string :=
  match n with
  | O => EmptyString
  | S n' => String " " (spaces n')
  end.

(** The names of line 234-262 in terms of the schema: object types that
    are no root type and whose name does not start with two underscores. *)
Definition eligible (ast : Schema) (typeName : string) : Prop :=
  (exists type, getType ast typeName = Some type /\ t_kind type = ObjectKind)
  /\ Str.startsWith "__" typeName = false
  /\ queryType ast <> Some typeName
  /\ mutationType ast <> Some typeName
  /\ subscriptionType ast <> Some typeName.

(** [printed] is what [printField] may return for a field named
    [fieldName] under [fragmentType]: the bare name, or the block that
    spreads the fragment of an object type of the schema. *)
Definition printedField (ast : Schema) (fragmentType fieldName printed : string) : Prop :=
  printed = fieldName
  \/ (fragmentType <> fragmentType.NO_RELATIONS
      /\ exists target type,
           getType ast target = Some type /\ t_kind type = ObjectKind
           /\ printed = nestedSpread fieldName target (spreadSuffix fragmentType) 1).

(** The object type the classifier resolves a field to, if any. *)
Definition referencedObject (ast : Schema) (f : Field) : option string :=
  match resolveField ast f with
  | Ok (field, Some c) =>
      if c =? "GraphQLObjectType" then
        match referencedTypeName field with
        | Ok typeName => Some typeName
        | Throw _ => None
        end
      else None
  | _ => None
  end.

(** A line of a fragment body before it is rendered: a field name, with
    the object type it refers to when it is a relation. *)
Definition selectionItem (ast : Schema) (f : Field) : option (string * option string) :=
  if isScalarOrEnum ast f then Some (f_name f, None)
  else match referencedObject ast f with
       | Some target => Some (f_name f, Some target)
       | None => None
       end.

Definition selection (ast : Schema) (type : TypeDef) : list (string * option string) :=
  dropNull (map (selectionItem ast) (t_fields type)).

(** A line rendered with the spreads pointing at the fragments of [suffix]. *)
Definition render (suffix : string) (item : string * option string) : string :=
  match item with
  | (fieldName, None) => fieldName
  | (fieldName, Some target) => nestedSpread fieldName target suffix 1
  end.

(** A non-null list type whose element type is itself a wrapper, as in the
    declarations [tags: [String!]!] and [rows: [[Cell]]!]. *)
Definition nonNullListOfWrapped (t : TypeNode) : bool :=
  match t with
  | NonNullType (ListType (NonNullType _))
  | NonNullType (ListType (ListType _)) => true
  | _ => false
  end.

(** A list type whose element type is a wrapper around a wrapper, as in
    the declarations [matrix: [[Int!]]] and [rows: [[Row]!]]. *)
Definition doublyWrappedList (t : TypeNode) : bool :=
  match t with
  | ListType (ListType (ListType _))
  | ListType (ListType (NonNullType _))
  | ListType (NonNullType (ListType _))
  | ListType (NonNullType (NonNullType _)) => true
  | _ => false
  end.

(** * Properties *)

(** ** The generator on the sample schema *)

Example Post_default_fragment :
  standardFragment Blog.schema "Post"
  = Ok (Some (mkFragment "Post"
                ("fragment Post on Post {" ++ Str.nl
                 ++ "  id" ++ Str.nl
                 ++ "  title" ++ Str.nl
                 ++ "  author {" ++ Str.nl
                 ++ "    ...UserNoNesting" ++ Str.nl
                 ++ "  }" ++ Str.nl
                 ++ "}" ++ Str.nl))).
Proof. reflexivity. Qed.

Example Post_full_fragment_with_User_tiers :
  deepFragmentsOf refEngine Blog.schema (Some Blog.userTiers)
    (map fst Blog.userTiers) "Post"
  = Ok (Some [ mkFragment "PostFull"
                 ("fragment PostFull on Post {" ++ Str.nl
                  ++ "  id" ++ Str.nl
                  ++ "  title" ++ Str.nl
                  ++ "  author {" ++ Str.nl
                  ++ "    ...UserPublicListing" ++ Str.nl
                  ++ "  }" ++ Str.nl
                  ++ "}") ]).
Proof. reflexivity. Qed.

Example Comment_has_no_NoRelations_fields :
  generateFragments Blog.Comment Blog.schema fragmentType.NO_RELATIONS = Ok [].
Proof. reflexivity. Qed.

(** ** Exceptions raised before the tier pass *)

Lemma onlyTypeError_Ok {A : Type} (a : A) : onlyTypeError (Ok a).
Proof. intros e H. discriminate H. Qed.

Lemma onlyTypeError_Throw {A : Type} : onlyTypeError (@Throw A TypeError).
Proof. intros e H. congruence. Qed.

Lemma onlyTypeError_bind {A B : Type} (r : result A) (k : A -> result B) :
  onlyTypeError r -> (forall a, onlyTypeError (k a)) -> onlyTypeError (bind r k).
Proof.
  intros Hr Hk e. destruct r as [a|e0]; simpl.
  - apply Hk.
  - intro H. apply Hr. congruence.
Qed.

Lemma onlyTypeError_mapR {A B : Type} (f : A -> result B) (l : list A) :
  (forall a, onlyTypeError (f a)) -> onlyTypeError (mapR f l).
Proof.
  intro Hf. induction l as [|a l IH]; simpl.
  - apply onlyTypeError_Ok.
  - apply onlyTypeError_bind; [apply Hf|]. intro b.
    apply onlyTypeError_bind; [exact IH|]. intro bs. apply onlyTypeError_Ok.
Qed.

Lemma onlyTypeError_filterR {A : Type} (f : A -> result bool) (l : list A) :
  (forall a, onlyTypeError (f a)) -> onlyTypeError (filterR f l).
Proof.
  intro Hf. induction l as [|a l IH]; simpl.
  - apply onlyTypeError_Ok.
  - apply onlyTypeError_bind; [apply Hf|]. intro b.
    apply onlyTypeError_bind; [exact IH|]. intro bs. apply onlyTypeError_Ok.
Qed.

Ltac only_type_error :=
  repeat match goal with
    | |- onlyTypeError (Ok _) => apply onlyTypeError_Ok
    | |- onlyTypeError (Throw TypeError) => apply onlyTypeError_Throw
    | |- onlyTypeError (mapR _ _) => apply onlyTypeError_mapR; intro
    | |- onlyTypeError (filterR _ _) => apply onlyTypeError_filterR; intro
    | |- onlyTypeError (bind _ _) => apply onlyTypeError_bind; [|intro]
    | |- onlyTypeError (let '(_, _) := ?x in _) => destruct x
    | |- onlyTypeError (match ?x with _ => _ end) => destruct x
    end.

Lemma getTypeConstructorName_onlyTypeError ast n :
  onlyTypeError (getTypeConstructorName ast n).
Proof. unfold getTypeConstructorName. only_type_error. Qed.

Lemma resolveField_onlyTypeError ast f : onlyTypeError (resolveField ast f).
Proof.
  unfold resolveField, typeConstructorName, unwrapList, unwrapNonNull,
    namedConstructorOrNull.
  only_type_error; apply getTypeConstructorName_onlyTypeError.
Qed.

Lemma printField_onlyTypeError fieldName f ast ft indent :
  onlyTypeError (printField fieldName f ast ft indent).
Proof.
  unfold printField, referencedTypeName.
  apply onlyTypeError_bind; [apply resolveField_onlyTypeError|].
  intro a. only_type_error.
Qed.

Lemma generateFragments_onlyTypeError type ast ft :
  onlyTypeError (generateFragments type ast ft).
Proof.
  unfold generateFragments. only_type_error. apply printField_onlyTypeError.
Qed.

Lemma typeNames_onlyTypeError E ast : onlyTypeError (typeNames E ast).
Proof.
  unfold typeNames. only_type_error. apply getTypeConstructorName_onlyTypeError.
Qed.

Lemma standardFragment_onlyTypeError ast n : onlyTypeError (standardFragment ast n).
Proof.
  unfold standardFragment.
  destruct (getType ast n); [|apply onlyTypeError_Throw].
  apply onlyTypeError_bind; [apply generateFragments_onlyTypeError|].
  intro a. only_type_error.
Qed.

Lemma noRelationsFragment_onlyTypeError ast n :
  onlyTypeError (noRelationsFragment ast n).
Proof.
  unfold noRelationsFragment.
  destruct (getType ast n); [|apply onlyTypeError_Throw].
  apply onlyTypeError_bind; [apply generateFragments_onlyTypeError|].
  intro a. only_type_error.
Qed.

(** C1.  With no tier configuration ([modelConfigs] undefined) the claim
    promises a completed run with one Full fragment per type.  The code
    instead evaluates [Object.keys(modelConfigs)] at line 298, before any
    deep fragment is built: [makeFragments] raises a [TypeError] for every
    schema and every generator. *)
Theorem makeFragments_without_modelConfigs_throws :
  forall (E : Engine) (ast : Schema) (generator : string),
    makeFragments E ast generator None = Throw TypeError.
Proof.
  intros E ast g. unfold makeFragments, collectFragments.
  destruct (typeNames E ast) as [names|e] eqn:Hn; simpl.
  2:{ rewrite (typeNames_onlyTypeError E ast e Hn). reflexivity. }
  destruct (mapR (standardFragment ast) names) as [std|e] eqn:Hs; simpl.
  2:{ rewrite (onlyTypeError_mapR _ names (standardFragment_onlyTypeError ast) e Hs).
      reflexivity. }
  destruct (mapR (noRelationsFragment ast) names) as [nr|e] eqn:Hr; simpl.
  2:{ rewrite (onlyTypeError_mapR _ names (noRelationsFragment_onlyTypeError ast) e Hr).
      reflexivity. }
  reflexivity.
Qed.

(** ** The classifier on wrapped object references *)

Section ObjectReference.

Variable ast : Schema.
Variable target : string.
Variable targetType : TypeDef.
Hypothesis target_defined : getType ast target = Some targetType.
Hypothesis target_is_object : t_kind targetType = ObjectKind.

Lemma target_constructor : getTypeConstructorName ast target = Ok "GraphQLObjectType".
Proof.
  unfold getTypeConstructorName. rewrite target_defined, target_is_object.
  reflexivity.
Qed.

Ltac print_reference :=
  intros;
  unfold printField, resolveField, typeConstructorName, unwrapList,
    unwrapNonNull, namedConstructorOrNull, referencedTypeName;
  simpl; rewrite ?target_constructor; simpl;
  repeat match goal with
         | |- context [if ?ft =? ?c then _ else _] => destruct (ft =? c)
         end; reflexivity.

(** [field: Target] *)
Lemma printField_plain fieldName fragmentType indent :
  printField fieldName (mkField fieldName (NamedType target)) ast fragmentType indent
  = Ok (if fragmentType =? fragmentType.NO_RELATIONS then None
        else Some (nestedSpread fieldName target (spreadSuffix fragmentType) indent)).
Proof. unfold nestedSpread, spreadSuffix. print_reference. Qed.

(** [field: Target!] *)
Lemma printField_nonnull fieldName fragmentType indent :
  printField fieldName (mkField fieldName (NonNullType (NamedType target))) ast
             fragmentType indent
  = printField fieldName (mkField fieldName (NamedType target)) ast fragmentType indent.
Proof. print_reference. Qed.

(** [field: [Target]] *)
Lemma printField_list fieldName fragmentType indent :
  printField fieldName (mkField fieldName (ListType (NamedType target))) ast
             fragmentType indent
  = printField fieldName (mkField fieldName (NamedType target)) ast fragmentType indent.
Proof. print_reference. Qed.

(** [field: [Target!]] *)
Lemma printField_list_of_nonnull fieldName fragmentType indent :
  printField fieldName (mkField fieldName (ListType (NonNullType (NamedType target))))
             ast fragmentType indent
  = printField fieldName (mkField fieldName (NamedType target)) ast fragmentType indent.
Proof. print_reference. Qed.

(** [field: [Target]!] *)
Lemma printField_nonnull_list fieldName fragmentType indent :
  printField fieldName (mkField fieldName (NonNullType (ListType (NamedType target))))
             ast fragmentType indent
  = printField fieldName (mkField fieldName (NamedType target)) ast fragmentType indent.
Proof. print_reference. Qed.

(** C2.  The claim wants a field declared [[Target!]!] printed as the
    nested-spread block of a plain [Target] field in the Default and Deep
    modes.  The non-null branch of [printField] looks for a name one and
    two nodes below the field's type node only; for [[Target!]!] the name
    sits three nodes below, [constructorName] stays [null], and the field
    is dropped in every mode, while the plain field yields the block. *)
Theorem printField_nonnull_list_of_nonnull_dropped :
  forall (fieldName fragmentType : string) (indent : nat),
    printField fieldName
      (mkField fieldName (NonNullType (ListType (NonNullType (NamedType target)))))
      ast fragmentType indent = Ok None
    /\ printField fieldName (mkField fieldName (NamedType target)) ast
         fragmentType.DEFAULT indent
       = Ok (Some (nestedSpread fieldName target fragmentType.NO_RELATIONS indent))
    /\ printField fieldName (mkField fieldName (NamedType target)) ast
         fragmentType.DEEP indent
       = Ok (Some (nestedSpread fieldName target fragmentType.DEEP indent)).
Proof.
  intros fieldName ft indent. split; [reflexivity|].
  split; rewrite printField_plain; reflexivity.
Qed.

End ObjectReference.

Lemma printField_nonnull_list_of_nonnull_dropped_witness :
  printField "comments"
    (mkField "comments" (NonNullType (ListType (NonNullType (NamedType "Comment")))))
    Blog.schema fragmentType.DEFAULT 1 = Ok None
  /\ printField "comments" (mkField "comments" (NamedType "Comment")) Blog.schema
       fragmentType.DEFAULT 1
     = Ok (Some (nestedSpread "comments" "Comment" fragmentType.NO_RELATIONS 1))
  /\ printField "comments" (mkField "comments" (NamedType "Comment")) Blog.schema
       fragmentType.DEEP 1
     = Ok (Some (nestedSpread "comments" "Comment" fragmentType.DEEP 1)).
Proof.
  apply (printField_nonnull_list_of_nonnull_dropped Blog.schema "Comment" Blog.Comment);
    reflexivity.
Defined.

(** ** The final rewrite leaves no [DeepNesting] *)




(** ** Inversion of the exception-passing loops *)

Lemma bind_Ok_inv {A B : Type} (r : result A) (k : A -> result B) (b : B) :
  bind r k = Ok b -> exists a, r = Ok a /\ k a = Ok b.
Proof.
  destruct r as [a|e]; simpl; intro H; [|discriminate H].
  exists a. split; [reflexivity|exact H].
Qed.

Lemma mapR_Ok_Forall2 {A B : Type} (f : A -> result B) (l : list A) (l' : list B) :
  mapR f l = Ok l' -> Forall2 (fun a b => f a = Ok b) l l'.
Proof.
  revert l'. induction l as [|a l IH]; simpl; intros l' H.
  - injection H as <-. constructor.
  - apply bind_Ok_inv in H. destruct H as [b [Hb H]].
    apply bind_Ok_inv in H. destruct H as [bs [Hbs H]].
    injection H as <-. constructor; [exact Hb|]. apply IH. exact Hbs.
Qed.

Lemma mapR_total {A B : Type} (f : A -> result B) (g : A -> B) (l : list A) :
  (forall a, In a l -> f a = Ok (g a)) -> mapR f l = Ok (map g l).
Proof.
  induction l as [|a l IH]; simpl; intro H; [reflexivity|].
  rewrite (H a (or_introl eq_refl)). simpl.
  rewrite IH; [reflexivity|]. intros x Hx. apply H. right. exact Hx.
Qed.







(** ** The tier expansion against its specification *)

Lemma append_empty_r (s : string) : s ++ EmptyString = s.
Proof. induction s as [|a s IH]; simpl; [reflexivity|]. rewrite IH. reflexivity. Qed.

Lemma append_assoc (a b c : string) : (a ++ b) ++ c = a ++ b ++ c.
Proof. induction a as [|x a IH]; simpl; [reflexivity|]. rewrite IH. reflexivity. Qed.

Lemma getType_name ast typeName type :
  getType ast typeName = Some type -> t_name type = typeName.
Proof.
  unfold getType. intro H. apply find_some in H. destruct H as [_ H].
  apply String.eqb_eq. exact H.
Qed.

Lemma firstWord_leadingIdentifier (f : string) : firstWord f = Spec.leadingIdentifier f.
Proof.
  unfold firstWord. induction f as [|a f IH]; [reflexivity|].
  simpl. destruct (Ascii.ascii_dec a " ") as [->|Hne].
  - reflexivity.
  - destruct (Ascii.eqb_spec a " ") as [Heq|_]; [contradiction|].
    destruct (Str.split " " f) as [|w ws]; rewrite <- IH; reflexivity.
Qed.

Lemma allowed_in_dec (allowlist : list string) (x : string) :
  allowed allowlist x = if in_dec string_dec x allowlist then true else false.
Proof.
  unfold allowed. destruct (in_dec string_dec x allowlist) as [Hin|Hout].
  - apply existsb_exists. exists x. split; [exact Hin|apply String.eqb_refl].
  - destruct (existsb (String.eqb x) allowlist) eqn:Hex; [|reflexivity].
    apply existsb_exists in Hex. destruct Hex as [y [Hy Hxy]].
    apply String.eqb_eq in Hxy. subst y. contradiction.
Qed.

Lemma tier_filter (allowlist fields : list string) :
  filter (fun f => allowed allowlist (firstWord f)) fields
  = Spec.tierFields allowlist fields.
Proof.
  unfold Spec.tierFields. apply filter_ext. intro f.
  rewrite firstWord_leadingIdentifier. apply allowed_in_dec.
Qed.

Lemma spreadFragments_join (typeName tier : string) :
  Str.join (indentedLine 1) (spreadFragments typeName tier)
  = match Spec.leadingSpread typeName tier with
    | Some spread => spread ++ indentedLine 1
    | None => EmptyString
    end.
Proof.
  unfold spreadFragments, Spec.leadingSpread.
  destruct (string_dec tier "Admin") as [->|H1].
  { simpl. rewrite ?append_empty_r. reflexivity. }
  destruct (string_dec tier "AdminListing") as [->|H2].
  { simpl. rewrite ?append_empty_r. reflexivity. }
  destruct (string_dec tier "Public") as [->|H3].
  { simpl. rewrite ?append_empty_r. reflexivity. }
  apply String.eqb_neq in H1, H2, H3. rewrite H1, H2, H3. reflexivity.
Qed.

Lemma tier_template (typeName tier : string) (allowlist fields : list string) :
  "fragment " ++ typeName ++ tier ++ " on " ++ typeName ++ " {" ++ Str.nl ++ "  "
  ++ Str.join (indentedLine 1) (spreadFragments typeName tier)
  ++ Str.join (indentedLine 1)
       (filter (fun f => allowed allowlist (firstWord f)) fields)
  ++ Str.nl ++ "}"
  = Spec.tierText typeName tier allowlist fields.
Proof.
  unfold Spec.tierText, Spec.tierBody.
  rewrite spreadFragments_join, tier_filter.
  rewrite (append_assoc _ (Str.join _ _)). reflexivity.
Qed.

Lemma literal_rewrite E (modelNames : list string) (tier text : string) :
  Forall (fun key => Str.allWordChars key = true) modelNames ->
  rewriteDeepNesting E modelNames
    (if negb (Str.includes "Admin" tier) then "PublicListing" else "AdminListing") text
  = Ok (Spec.rewrite modelNames tier text).
Proof.
  intro Hkeys. unfold rewriteDeepNesting, Spec.rewrite.
  replace (if negb (Str.includes "Admin" tier) then "PublicListing" else "AdminListing")
    with (if Str.includes "Admin" tier then "AdminListing" else "PublicListing")
    by (destruct (Str.includes "Admin" tier); reflexivity).
  set (target := if Str.includes "Admin" tier then "AdminListing" else "PublicListing").
  revert text. induction Hkeys as [|key keys Hkey _ IH]; intro text; [reflexivity|].
  simpl. unfold replaceSpread at 1. rewrite Hkey. simpl. apply IH.
Qed.



(** The tier fragments of the sample configuration, as text. *)
Example Post_tier_fragments :
  deepFragmentsOf refEngine Blog.schema (Some Blog.tiers) (map fst Blog.tiers) "Post"
  = Ok (Some [ mkFragment "PostPublicListing"
                 ("fragment PostPublicListing on Post {" ++ Str.nl
                  ++ "  id" ++ Str.nl
                  ++ "  title" ++ Str.nl
                  ++ "}");
               mkFragment "PostPublic"
                 ("fragment PostPublic on Post {" ++ Str.nl
                  ++ "  ...PostPublicListing" ++ Str.nl
                  ++ "  id" ++ Str.nl
                  ++ "  title" ++ Str.nl
                  ++ "  author {" ++ Str.nl
                  ++ "    ...UserFull" ++ Str.nl
                  ++ "  }" ++ Str.nl
                  ++ "}") ]).
Proof. reflexivity. Qed.

(** ** Generators *)

(** C6.  A generator that is none of [js], [graphql] and
    [multi-file-graphql] raises nothing of its own: [makeFragments]
    answers what it answers for [graphql], and whenever the fragment lists
    are produced the result is the single concatenated GraphQL document,
    which [processFragments] writes to the one output file. *)
Theorem unrecognized_generator_gives_single_document :
  forall (E : Engine) (ast : Schema) (generator : string)
         (modelConfigs : option ModelConfigs)
         (determineFragmentsOutputPath : string -> string),
    generator <> "js" -> generator <> "graphql" -> generator <> "multi-file-graphql" ->
    makeFragments E ast generator modelConfigs
    = makeFragments E ast "graphql" modelConfigs
    /\ forall standard noRelations deep,
         collectFragments E ast modelConfigs = Ok (standard, noRelations, deep) ->
         makeFragments E ast generator modelConfigs
         = Ok [mkFragment "*" (graphqlDocument standard noRelations deep)]
         /\ processFragments E generator determineFragmentsOutputPath ast modelConfigs
            = Ok ([(determineFragmentsOutputPath "js",
                    graphqlDocument standard noRelations deep)],
                  mkExtension (determineFragmentsOutputPath "js") generator).
Proof.
  intros E ast g mc det Hjs Hgql Hmulti.
  apply String.eqb_neq in Hjs, Hgql, Hmulti.
  assert (Hassemble : forall lists, assemble g lists = assemble "graphql" lists).
  { intros [[s n] d]. unfold assemble. rewrite Hjs, Hmulti. reflexivity. }
  split.
  - unfold makeFragments. destruct (collectFragments E ast mc); simpl; [|reflexivity].
    rewrite Hassemble. reflexivity.
  - intros s n d H.
    assert (Hmake : makeFragments E ast g mc
                    = Ok [mkFragment "*" (graphqlDocument s n d)]).
    { unfold makeFragments. rewrite H. simpl. rewrite Hjs, Hmulti. reflexivity. }
    split; [exact Hmake|].
    unfold processFragments. rewrite Hmake. simpl.
    unfold extensionFor. rewrite Hgql, Hmulti. reflexivity.
Qed.

Lemma unrecognized_generator_gives_single_document_witness :
  let document := graphqlDocument (fst (fst Blog.tieredLists))
                    (snd (fst Blog.tieredLists)) (snd Blog.tieredLists) in
  makeFragments refEngine Blog.schema "typescript" (Some Blog.tiers)
  = makeFragments refEngine Blog.schema "graphql" (Some Blog.tiers)
  /\ makeFragments refEngine Blog.schema "typescript" (Some Blog.tiers)
     = Ok [mkFragment "*" document]
  /\ processFragments refEngine "typescript"
       (fun extension => "src/blog.fragments." ++ extension)
       Blog.schema (Some Blog.tiers)
     = Ok ([("src/blog.fragments." ++ "js", document)],
           mkExtension ("src/blog.fragments." ++ "js") "typescript").
Proof.
  destruct (unrecognized_generator_gives_single_document refEngine Blog.schema
              "typescript" (Some Blog.tiers)
              (fun extension => "src/blog.fragments." ++ extension))
    as [Hsame Hdocument].
  - discriminate.
  - discriminate.
  - discriminate.
  - split; [exact Hsame|].
    apply (Hdocument (fst (fst Blog.tieredLists)) (snd (fst Blog.tieredLists))
             (snd Blog.tieredLists)).
    vm_compute. reflexivity.
Defined.

(** C10.  [processFragments] looks at the list [makeFragments] returns:
    a non-empty list whose first name is not [*] is written one file per
    fragment, a list starting with the [*] entry is written to the single
    output file, and on the empty list the single-file branch reads
    [fragments[0].fragment] and raises a [TypeError]; nothing is written. *)
Theorem processFragments_on_fragment_list :
  forall (E : Engine) (generator : string)
         (determineFragmentsOutputPath : string -> string)
         (ast : Schema) (modelConfigs : option ModelConfigs)
         (fragments : list Fragment),
    makeFragments E ast generator modelConfigs = Ok fragments ->
    let extension := extensionFor generator in
    let outputPath := determineFragmentsOutputPath extension in
    (fragments = [] ->
     processFragments E generator determineFragmentsOutputPath ast modelConfigs
     = Throw TypeError)
    /\ (forall first rest, fragments = first :: rest -> name first = "*" ->
        processFragments E generator determineFragmentsOutputPath ast modelConfigs
        = Ok ([(outputPath, fragment first)], mkExtension outputPath generator))
    /\ (forall first rest, fragments = first :: rest -> name first <> "*" ->
        processFragments E generator determineFragmentsOutputPath ast modelConfigs
        = Ok (map (fun f => (basePathOf outputPath ++ "/" ++ name f ++ "." ++ extension,
                             fragment f)) fragments,
              mkExtension (basePathOf outputPath) generator)).
Proof.
  intros E g det ast mc fragments H extension outputPath.
  unfold processFragments. rewrite H. simpl.
  split; [|split].
  - intros ->. reflexivity.
  - intros first rest -> Hname. rewrite Hname. reflexivity.
  - intros first rest -> Hname. apply String.eqb_neq in Hname.
    rewrite Hname. reflexivity.
Qed.

Lemma processFragments_on_fragment_list_witness :
  processFragments refEngine "multi-file-graphql"
    (fun extension => "fragments/bare.fragments." ++ extension)
    Bare.schema (Some [])
  = Throw TypeError.
Proof.
  apply (proj1 (processFragments_on_fragment_list refEngine "multi-file-graphql"
                  (fun extension => "fragments/bare.fragments." ++ extension)
                  Bare.schema (Some []) [] eq_refl)).
  reflexivity.
Defined.

(** ** Types without printable fields *)

Lemma In_dropNull_mapR {A B : Type} (f : A -> result (option B))
    (l : list A) (l' : list (option B)) (b : B) :
  mapR f l = Ok l' -> In b (dropNull l') -> exists a, In a l /\ f a = Ok (Some b).
Proof.
  intro H. apply mapR_Ok_Forall2 in H.
  induction H as [|a o l l' Ha _ IH]; simpl; [contradiction|].
  destruct o as [b'|]; simpl.
  - intros [<-|Hin].
    + exists a. split; [left; reflexivity|exact Ha].
    + destruct (IH Hin) as [a' [Hin' Ha']]. exists a'. split; [right|]; assumption.
  - intro Hin. destruct (IH Hin) as [a' [Hin' Ha']].
    exists a'. split; [right|]; assumption.
Qed.

Lemma standardFragment_name ast typeName f :
  standardFragment ast typeName = Ok (Some f) -> name f = typeName.
Proof.
  unfold standardFragment. destruct (getType ast typeName) as [type|] eqn:Ht;
    [|discriminate].
  intro H. apply bind_Ok_inv in H. destruct H as [fields [_ H]].
  destruct fields; [discriminate H|]. injection H as <-. simpl.
  apply (getType_name _ _ _ Ht).
Qed.

Lemma noRelationsFragment_name ast typeName f :
  noRelationsFragment ast typeName = Ok (Some f) -> name f = typeName.
Proof.
  unfold noRelationsFragment. destruct (getType ast typeName) as [type|] eqn:Ht;
    [|discriminate].
  intro H. apply bind_Ok_inv in H. destruct H as [fields [_ H]].
  destruct fields; [discriminate H|]. injection H as <-. simpl.
  apply (getType_name _ _ _ Ht).
Qed.

Lemma collectFragments_inv E ast modelConfigs standard noRelations deep :
  collectFragments E ast modelConfigs = Ok (standard, noRelations, deep) ->
  exists names s n modelNames d,
    typeNames E ast = Ok names
    /\ mapR (standardFragment ast) names = Ok s /\ standard = dropNull s
    /\ mapR (noRelationsFragment ast) names = Ok n /\ noRelations = dropNull n
    /\ objectKeys modelConfigs = Ok modelNames
    /\ mapR (deepFragmentsOf E ast modelConfigs modelNames) names = Ok d
    /\ deep = flatten d.
Proof.
  unfold collectFragments. intro H.
  apply bind_Ok_inv in H. destruct H as [names [Hnames H]].
  apply bind_Ok_inv in H. destruct H as [s [Hs H]].
  apply bind_Ok_inv in H. destruct H as [n [Hn H]].
  apply bind_Ok_inv in H. destruct H as [modelNames [Hm H]].
  apply bind_Ok_inv in H. destruct H as [d [Hd H]].
  injection H as <- <- <-.
  exists names, s, n, modelNames, d. repeat split; assumption.
Qed.

(** C7.  When the printed, filtered field list of a type is empty under a
    mode, the builder of that mode returns nothing for the type: no
    Default (resp. NoRelations) fragment of that name is in the list of
    the run, and the Deep pass yields no fragment for the type whatever the
    tier configuration. *)
Theorem no_fragment_without_printable_fields :
  forall (E : Engine) (ast : Schema) (modelConfigs : option ModelConfigs)
         (typeName : string) (type : TypeDef),
    getType ast typeName = Some type ->
    (generateFragments type ast fragmentType.DEFAULT = Ok [] ->
     standardFragment ast typeName = Ok None
     /\ forall standard noRelations deep,
          collectFragments E ast modelConfigs = Ok (standard, noRelations, deep) ->
          ~ In typeName (map name standard))
    /\ (generateFragments type ast fragmentType.NO_RELATIONS = Ok [] ->
        noRelationsFragment ast typeName = Ok None
        /\ forall standard noRelations deep,
             collectFragments E ast modelConfigs = Ok (standard, noRelations, deep) ->
             ~ In typeName (map name noRelations))
    /\ (generateFragments type ast fragmentType.DEEP = Ok [] ->
        forall modelNames,
          deepFragmentsOf E ast modelConfigs modelNames typeName = Ok None).
Proof.
  intros E ast mc typeName type Htype. split; [|split].
  - intro Hempty.
    assert (Hnone : standardFragment ast typeName = Ok None).
    { unfold standardFragment. rewrite Htype, Hempty. reflexivity. }
    split; [exact Hnone|].
    intros std nr deep H Hin.
    apply collectFragments_inv in H.
    destruct H as [names [s [n [mn [d [_ [Hs [-> _]]]]]]]].
    apply in_map_iff in Hin. destruct Hin as [f [Hname Hin]].
    destruct (In_dropNull_mapR _ _ _ _ Hs Hin) as [x [_ Hx]].
    rewrite <- (standardFragment_name _ _ _ Hx), Hname in Hx. congruence.
  - intro Hempty.
    assert (Hnone : noRelationsFragment ast typeName = Ok None).
    { unfold noRelationsFragment. rewrite Htype, Hempty. reflexivity. }
    split; [exact Hnone|].
    intros std nr deep H Hin.
    apply collectFragments_inv in H.
    destruct H as [names [s [n [mn [d [_ [_ [_ [Hn [-> _]]]]]]]]]].
    apply in_map_iff in Hin. destruct Hin as [f [Hname Hin]].
    destruct (In_dropNull_mapR _ _ _ _ Hn Hin) as [x [_ Hx]].
    rewrite <- (noRelationsFragment_name _ _ _ Hx), Hname in Hx. congruence.
  - intros Hempty modelNames. unfold deepFragmentsOf.
    rewrite Htype, Hempty. reflexivity.
Qed.

Lemma no_fragment_without_printable_fields_witness :
  noRelationsFragment Blog.schema "Comment" = Ok None
  /\ forall standard noRelations deep,
       collectFragments refEngine Blog.schema (Some Blog.tiers)
       = Ok (standard, noRelations, deep) ->
       ~ In "Comment" (map name noRelations).
Proof.
  apply (proj1 (proj2 (no_fragment_without_printable_fields refEngine Blog.schema
                         (Some Blog.tiers) "Comment" Blog.Comment eq_refl))).
  reflexivity.
Defined.

(** ** Schemas without a query root *)

Lemma filterR_total {A : Type} (f : A -> result bool) (g : A -> bool) (l : list A) :
  (forall a, In a l -> f a = Ok (g a)) -> filterR f l = Ok (filter g l).
Proof.
  induction l as [|a l IH]; simpl; intro H; [reflexivity|].
  rewrite (H a (or_introl eq_refl)). simpl.
  rewrite IH; [reflexivity|]. intros x Hx. apply H. right. exact Hx.
Qed.

Lemma filter_implied {A : Type} (g1 g2 : A -> bool) (l : list A) :
  (forall a, g2 a = true -> g1 a = true) -> filter g2 (filter g1 l) = filter g2 l.
Proof.
  intro H. induction l as [|a l IH]; simpl; [reflexivity|].
  destruct (g1 a) eqn:H1; simpl.
  - rewrite IH. reflexivity.
  - destruct (g2 a) eqn:H2; [|exact IH].
    rewrite (H a H2) in H1. discriminate H1.
Qed.

Lemma filterR_throws {A : Type} (e : error) (l : list A) :
  l <> [] -> filterR (fun _ => @Throw bool e) l = Throw e.
Proof. destruct l; [contradiction|reflexivity]. Qed.

Lemma typeNames_candidates E ast :
  typeNames E ast
  = notQuery <- filterR (fun typeName =>
                           match queryType ast with
                           | Some q => Ok (negb (typeName =? q))
                           | None => Throw TypeError
                           end) (candidates ast) ;;
    Ok (sortTypeNames E
          (filter (fun typeName =>
                     match subscriptionType ast with
                     | Some s => negb (typeName =? s)
                     | None => true
                     end)
             (filter (fun typeName =>
                        match mutationType ast with
                        | Some m => negb (typeName =? m)
                        | None => true
                        end) notQuery))).
Proof.
  unfold typeNames, candidates.
  rewrite (filterR_total _
             (fun typeName => match getType ast typeName with
                              | Some t => constructorNameOf (t_kind t) =? "GraphQLObjectType"
                              | None => false
                              end)).
  - cbn [bind].
    rewrite (filter_implied
               (fun typeName => match getType ast typeName with
                                | Some _ => true
                                | None => false
                                end)
               (fun typeName => match getType ast typeName with
                                | Some t => constructorNameOf (t_kind t) =? "GraphQLObjectType"
                                | None => false
                                end)); [reflexivity|].
    intros n Hn. destruct (getType ast n); [reflexivity|discriminate Hn].
  - intros n Hn. apply filter_In in Hn. destruct Hn as [_ Hn].
    unfold getTypeConstructorName. destruct (getType ast n); [reflexivity|discriminate].
Qed.

(** C9, as the code behaves.  [ast.getQueryType()] is dereferenced inside
    the callback of a [filter], so the [TypeError] is raised when a name
    reaches that filter: for every schema without a query root that defines
    at least one object type whose name does not start with two
    underscores, [makeFragments] fails, whatever the generator and the tier
    configuration. *)
Theorem makeFragments_without_query_root_throws :
  forall (E : Engine) (ast : Schema) (generator : string)
         (modelConfigs : option ModelConfigs) (typeName : string) (type : TypeDef),
    queryType ast = None ->
    getType ast typeName = Some type ->
    t_kind type = ObjectKind ->
    Str.startsWith "__" typeName = false ->
    makeFragments E ast generator modelConfigs = Throw TypeError.
Proof.
  intros E ast g mc typeName type Hq Htype Hkind Hvisible.
  assert (Hin : In typeName (candidates ast)).
  { unfold candidates. apply filter_In. split; [|rewrite Hvisible; reflexivity].
    apply filter_In. split; [|rewrite Htype, Hkind; reflexivity].
    unfold getType in Htype. apply find_some in Htype. destruct Htype as [Hin Hn].
    apply String.eqb_eq in Hn. subst typeName. apply in_map. exact Hin. }
  unfold makeFragments, collectFragments.
  rewrite typeNames_candidates, Hq, filterR_throws; [reflexivity|].
  intro Hnil. rewrite Hnil in Hin. contradiction.
Qed.

Lemma makeFragments_without_query_root_throws_witness :
  makeFragments refEngine
    (mkSchema (typeMap Blog.schema) None None None) "graphql" (Some Blog.tiers)
  = Throw TypeError.
Proof.
  apply (makeFragments_without_query_root_throws refEngine
           (mkSchema (typeMap Blog.schema) None None None) "graphql"
           (Some Blog.tiers) "Post" Blog.Post);
    reflexivity.
Defined.

(** C9, as stated, fails: a schema without a query root and without object
    types of its own goes through; no name reaches the filter that
    dereferences the query root, and the empty document is written. *)
Lemma query_root_not_needed_without_object_types :
  queryType Enums.schema = None
  /\ makeFragments refEngine Enums.schema "graphql" (Some [])
     = Ok [mkFragment "*" (graphqlDocument [] [] [])]
  /\ processFragments refEngine "graphql"
       (fun extension => "enums.fragments." ++ extension) Enums.schema (Some [])
     = Ok ([("enums.fragments.graphql", graphqlDocument [] [] [])],
           mkExtension "enums.fragments.graphql" "graphql").
Proof. repeat split. Qed.

(** ** Fragment names *)
















(** ** Types with scalar and enum fields only *)

Lemma includes_append_r (p a b : string) :
  Str.includes p b = true -> Str.includes p (a ++ b) = true.
Proof.
  intro H. induction a as [|x a IH]; simpl; [exact H|].
  rewrite IH. apply orb_true_r.
Qed.





Lemma startsWith_append_includes (x y s : string) :
  Str.startsWith (x ++ y) s = true -> Str.includes y s = true.
Proof.
  revert s. induction x as [|a x IH]; simpl; intros s H.
  - destruct s; simpl; rewrite H; reflexivity.
  - destruct s as [|b s]; [discriminate H|].
    apply andb_true_iff in H. destruct H as [_ H].
    cbn [Str.includes]. rewrite (IH s H). apply orb_true_r.
Qed.

Lemma includes_append_l (x y s : string) :
  Str.includes y s = false -> Str.includes (x ++ y) s = false.
Proof.
  induction s as [|b s IH]; intro H.
  - destruct (Str.includes (x ++ y) EmptyString) eqn:Hx; [|reflexivity].
    cbn [Str.includes] in Hx. rewrite orb_false_r in Hx.
    rewrite (startsWith_append_includes _ _ _ Hx) in H. discriminate H.
  - cbn [Str.includes] in H. apply orb_false_iff in H. destruct H as [H1 H2].
    cbn [Str.includes]. rewrite (IH H2), orb_false_r.
    destruct (Str.startsWith (x ++ y) (String b s)) eqn:Hx; [|reflexivity].
    apply startsWith_append_includes in Hx.
    cbn [Str.includes] in Hx. rewrite H1, H2 in Hx. discriminate Hx.
Qed.

Lemma replaceAll_absent (pat rep s : string) :
  Str.includes pat s = false -> Str.replaceAll pat rep s = s.
Proof.
  unfold Str.replaceAll. induction s as [|a s IH]; intro H; [reflexivity|].
  cbn [Str.includes] in H. apply orb_false_iff in H. destruct H as [H1 H2].
  cbn [Str.replaceFrom]. rewrite H1, (IH H2). reflexivity.
Qed.

Lemma rewriteDeepNesting_absent E modelNames target text :
  Forall (fun key => Str.allWordChars key = true) modelNames ->
  Str.includes "DeepNesting" text = false ->
  rewriteDeepNesting E modelNames target text = Ok text.
Proof.
  intros Hkeys Htext. unfold rewriteDeepNesting.
  assert (Hloop : foldR (replaceSpread E target) modelNames text = Ok text).
  { induction Hkeys as [|key keys Hkey _ IH]; [reflexivity|].
    simpl. unfold replaceSpread at 1. rewrite Hkey.
    rewrite replaceAll_absent; [exact IH|].
    rewrite <- append_assoc. apply includes_append_l. exact Htext. }
  rewrite Hloop. simpl. rewrite replaceAll_absent; [reflexivity|exact Htext].
Qed.



(** * Further properties of the generator *)

(** ** Paths of the multi-file output *)

Lemma split_nonempty (c : ascii) (s : string) : Str.split c s <> [].
Proof.
  destruct s as [|a s]; simpl; [discriminate|].
  destruct (Ascii.eqb a c); [discriminate|].
  destruct (Str.split c s); discriminate.
Qed.

Lemma join_cons (sep x : string) (l : list string) :
  l <> [] -> Str.join sep (x :: l) = x ++ sep ++ Str.join sep l.
Proof. destruct l; [contradiction|reflexivity]. Qed.

(** [s.split(c).join(c)] gives [s] back. *)
Lemma join_split (c : ascii) (s : string) :
  Str.join (String c EmptyString) (Str.split c s) = s.
Proof.
  induction s as [|a s IH]; [reflexivity|].
  cbn [Str.split]. destruct (Ascii.eqb_spec a c) as [->|Hne].
  - rewrite join_cons by apply split_nonempty. rewrite IH. reflexivity.
  - pose proof (split_nonempty c s) as Hs.
    destruct (Str.split c s) as [|w ws]; [contradiction|].
    destruct ws as [|w' ws].
    + simpl in *. rewrite IH. reflexivity.
    + rewrite join_cons by discriminate. rewrite join_cons in IH by discriminate.
      simpl. rewrite <- IH. reflexivity.
Qed.

Lemma split_absent (c : ascii) (s : string) :
  absent c s = true -> Str.split c s = [s].
Proof.
  induction s as [|a s IH]; [reflexivity|].
  simpl. intro H. apply andb_true_iff in H. destruct H as [Ha Hs].
  apply negb_true_iff in Ha. rewrite Ha, (IH Hs). reflexivity.
Qed.

Lemma split_append (c : ascii) (x y : string) :
  Str.split c (x ++ String c y) = (Str.split c x ++ Str.split c y)%list.
Proof.
  induction x as [|a x IH]; simpl.
  - rewrite Ascii.eqb_refl. reflexivity.
  - rewrite IH. destruct (Ascii.eqb a c); [reflexivity|].
    pose proof (split_nonempty c x) as Hx.
    destruct (Str.split c x) as [|w ws]; [contradiction|reflexivity].
Qed.

(** X1.  The base path of an output path [dir/file] is [dir]: the
    multi-file generator writes next to the configured output file. *)
Theorem basePathOf_directory :
  forall dir file : string,
    absent "/" file = true ->
    basePathOf (dir ++ "/" ++ file) = dir.
Proof.
  intros dir file Hfile. unfold basePathOf.
  change (dir ++ "/" ++ file) with (dir ++ String "/" file).
  rewrite split_append, (split_absent _ _ Hfile), removelast_last.
  apply join_split.
Qed.

Lemma basePathOf_directory_witness :
  basePathOf ("src/generated" ++ "/" ++ "blog.fragments.gql") = "src/generated".
Proof. apply (basePathOf_directory "src/generated" "blog.fragments.gql"). reflexivity. Defined.

(** X2.  When the output path has no directory part, the base path is the
    empty string: the multi-file generator then writes every fragment to
    [/<name>.gql], at the root of the file system, and reports the empty
    string as its output. *)
Theorem multi_file_output_without_directory :
  forall (E : Engine) (determineFragmentsOutputPath : string -> string)
         (ast : Schema) (modelConfigs : option ModelConfigs)
         (first : Fragment) (rest : list Fragment),
    absent "/" (determineFragmentsOutputPath "gql") = true ->
    name first <> "*" ->
    makeFragments E ast "multi-file-graphql" modelConfigs = Ok (first :: rest) ->
    processFragments E "multi-file-graphql" determineFragmentsOutputPath ast modelConfigs
    = Ok (map (fun f => ("/" ++ name f ++ ".gql", fragment f)) (first :: rest),
          mkExtension EmptyString "multi-file-graphql").
Proof.
  intros E det ast mc first rest Hpath Hname Hmake.
  apply String.eqb_neq in Hname.
  unfold processFragments. rewrite Hmake. cbn [bind].
  change (extensionFor "multi-file-graphql") with "gql".
  cbv zeta. rewrite Hname. cbn [negb].
  unfold basePathOf. rewrite (split_absent _ _ Hpath). reflexivity.
Qed.

Lemma multi_file_output_without_directory_witness :
  processFragments refEngine "multi-file-graphql"
    (fun extension => "blog.fragments." ++ extension) Blog.schema (Some Blog.userTiers)
  = Ok (map (fun f => ("/" ++ name f ++ ".gql", fragment f))
            (match makeFragments refEngine Blog.schema "multi-file-graphql"
                     (Some Blog.userTiers) with
             | Ok fragments => fragments
             | Throw _ => []
             end),
        mkExtension EmptyString "multi-file-graphql").
Proof.
  apply (multi_file_output_without_directory refEngine
           (fun extension => "blog.fragments." ++ extension) Blog.schema
           (Some Blog.userTiers)).
  - reflexivity.
  - discriminate.
  - reflexivity.
Defined.

(** ** The classifier on every kind of named type *)

Ltac print_shapes :=
  unfold printField, resolveField, typeConstructorName, unwrapList, unwrapNonNull,
    namedConstructorOrNull, referencedTypeName, getTypeConstructorName;
  cbn [f_type f_name node_type node_name bind field_kind node_kind].

(** X3.  For a named type of the schema, of whatever kind, the
    declarations [T!], [[T]], [[T!]] and [[T]!] are printed as the
    declaration [T] is, in every mode: one or two wrappers are seen
    through. *)
Theorem printField_sees_through_two_wrappers :
  forall (ast : Schema) (target : string) (type : TypeDef)
         (fieldName fragmentType : string) (indent : nat),
    getType ast target = Some type ->
    let plain := printField fieldName (mkField fieldName (NamedType target)) ast
                   fragmentType indent in
    printField fieldName (mkField fieldName (NonNullType (NamedType target))) ast
      fragmentType indent = plain
    /\ printField fieldName (mkField fieldName (ListType (NamedType target))) ast
         fragmentType indent = plain
    /\ printField fieldName (mkField fieldName (ListType (NonNullType (NamedType target))))
         ast fragmentType indent = plain
    /\ printField fieldName (mkField fieldName (NonNullType (ListType (NamedType target))))
         ast fragmentType indent = plain.
Proof.
  intros ast target type fieldName ft indent Htype plain. unfold plain.
  repeat split; print_shapes; simpl; rewrite ?Htype; simpl;
    destruct (t_kind type); simpl;
    repeat match goal with
           | |- context [if ft =? ?c then _ else _] => destruct (ft =? c)
           end; reflexivity.
Qed.

Lemma printField_sees_through_two_wrappers_witness :
  let plain := printField "role" (mkField "role" (NamedType "Role")) Blog.schema
                 fragmentType.DEEP 1 in
  printField "role" (mkField "role" (NonNullType (NamedType "Role"))) Blog.schema
    fragmentType.DEEP 1 = plain
  /\ printField "role" (mkField "role" (ListType (NamedType "Role"))) Blog.schema
       fragmentType.DEEP 1 = plain
  /\ printField "role" (mkField "role" (ListType (NonNullType (NamedType "Role"))))
       Blog.schema fragmentType.DEEP 1 = plain
  /\ printField "role" (mkField "role" (NonNullType (ListType (NamedType "Role"))))
       Blog.schema fragmentType.DEEP 1 = plain.
Proof.
  apply (printField_sees_through_two_wrappers Blog.schema "Role"
           (mkType "Role" EnumKind [])).
  reflexivity.
Defined.

(** X4.  A field whose named type is an interface, a union or an input
    object is dropped in every mode, bare or under one or two wrappers:
    the classifier knows scalars, enums and object types only. *)
Theorem printField_drops_abstract_types :
  forall (ast : Schema) (target : string) (type : TypeDef)
         (fieldName fragmentType : string) (indent : nat) (shape : TypeNode),
    getType ast target = Some type ->
    t_kind type = InterfaceKind \/ t_kind type = UnionKind
    \/ t_kind type = InputObjectKind ->
    In shape [ NamedType target; NonNullType (NamedType target);
               ListType (NamedType target); ListType (NonNullType (NamedType target));
               NonNullType (ListType (NamedType target)) ] ->
    printField fieldName (mkField fieldName shape) ast fragmentType indent = Ok None.
Proof.
  intros ast target type fieldName ft indent shape Htype Hkind Hshape.
  simpl in Hshape.
  destruct Hshape as [ <- | [ <- | [ <- | [ <- | [ <- | Hnone ] ] ] ] ];
    try contradiction;
    print_shapes; simpl; rewrite ?Htype; simpl;
    destruct Hkind as [ -> | [ -> | -> ] ]; reflexivity.
Qed.

Lemma printField_drops_abstract_types_witness :
  printField "hits" (mkField "hits" (ListType (NonNullType (NamedType "Hit"))))
    Shapes.schema fragmentType.DEFAULT 1 = Ok None.
Proof.
  apply (printField_drops_abstract_types Shapes.schema "Hit" (mkType "Hit" UnionKind [])).
  - reflexivity.
  - right. left. reflexivity.
  - right. right. right. left. reflexivity.
Defined.

(** ** What a fragment body is made of *)

Lemma getTypeConstructorName_inv ast n c :
  getTypeConstructorName ast n = Ok c ->
  exists type, getType ast n = Some type /\ c = constructorNameOf (t_kind type).
Proof.
  unfold getTypeConstructorName. destruct (getType ast n) as [type|]; [|discriminate].
  intro H. injection H as <-. exists type. split; reflexivity.
Qed.

Lemma constructorNameOf_not_wrapper (k : NamedKind) :
  (constructorNameOf k =? "GraphQLList") = false
  /\ (constructorNameOf k =? "GraphQLNonNull") = false.
Proof. destruct k; split; reflexivity. Qed.

(** The classifier ends on the name whose constructor it reports. *)
Lemma resolveField_reference ast f field c :
  resolveField ast f = Ok (field, Some c) ->
  exists n, referencedTypeName field = Ok n /\ getTypeConstructorName ast n = Ok c.
Proof.
  destruct f as [fname ftype].
  unfold resolveField, typeConstructorName, unwrapList, unwrapNonNull,
    namedConstructorOrNull.
  cbn [f_type].
  destruct ftype as [n|[n|t2|t2]|[n|t2|t2]]; cbn.
  - destruct (getTypeConstructorName ast n) as [c0|] eqn:Hc; [|discriminate].
    cbn. destruct (getTypeConstructorName_inv _ _ _ Hc) as [type [_ ->]].
    destruct (constructorNameOf_not_wrapper (t_kind type)) as [H1 H2].
    rewrite ?H1; cbn; rewrite ?H2; cbn.
    intro H. injection H as <- <-. exists n. split; [reflexivity|exact Hc].
  - destruct (getTypeConstructorName ast n) as [c0|] eqn:Hc; [|discriminate].
    cbn. destruct (getTypeConstructorName_inv _ _ _ Hc) as [type [_ ->]].
    destruct (constructorNameOf_not_wrapper (t_kind type)) as [H1 H2].
    rewrite ?H1; cbn; rewrite ?H2; cbn.
    intro H. injection H as <- <-. exists n. split; [reflexivity|exact Hc].
  - destruct t2 as [n|t3|t3]; cbn; try discriminate.
    destruct (getTypeConstructorName ast n) as [c0|] eqn:Hc; [|discriminate].
    cbn. destruct (getTypeConstructorName_inv _ _ _ Hc) as [type [_ ->]].
    destruct (constructorNameOf_not_wrapper (t_kind type)) as [H1 H2].
    rewrite ?H1; cbn; rewrite ?H2; cbn.
    intro H. injection H as <- <-. exists n. split; [reflexivity|exact Hc].
  - destruct t2 as [n|t3|t3]; cbn; try discriminate.
    destruct (getTypeConstructorName ast n) as [c0|] eqn:Hc; [|discriminate].
    cbn. destruct (getTypeConstructorName_inv _ _ _ Hc) as [type [_ ->]].
    destruct (constructorNameOf_not_wrapper (t_kind type)) as [H1 H2].
    rewrite ?H1; cbn; rewrite ?H2; cbn.
    intro H. injection H as <- <-. exists n. split; [reflexivity|exact Hc].
  - destruct (getTypeConstructorName ast n) as [c0|] eqn:Hc; [|discriminate].
    cbn. intro H. injection H as <- <-. exists n. split; [reflexivity|exact Hc].
  - destruct t2 as [n|t3|t3]; cbn; try discriminate.
    destruct (getTypeConstructorName ast n) as [c0|] eqn:Hc; [|discriminate].
    cbn. intro H. injection H as <- <-. exists n. split; [reflexivity|exact Hc].
  - destruct t2 as [n|t3|t3]; cbn; try discriminate.
    destruct (getTypeConstructorName ast n) as [c0|] eqn:Hc; [|discriminate].
    cbn. intro H. injection H as <- <-. exists n. split; [reflexivity|exact Hc].
Qed.

(** What [printField] returns once the classifier has returned. *)
Lemma printField_resolved fieldName f ast ft indent st :
  resolveField ast f = Ok st ->
  printField fieldName f ast ft indent
  = Ok (if isScalarOrEnum ast f then Some fieldName
        else match referencedObject ast f with
             | Some target =>
                 if ft =? fragmentType.NO_RELATIONS then None
                 else Some (nestedSpread fieldName target (spreadSuffix ft) indent)
             | None => None
             end).
Proof.
  intro Hst. unfold printField, isScalarOrEnum, referencedObject. rewrite Hst.
  destruct st as [field [c|]]; cbn [bind]; [|reflexivity].
  destruct ((c =? "GraphQLScalarType") || (c =? "GraphQLEnumType")); [reflexivity|].
  destruct (c =? "GraphQLObjectType"); [|reflexivity].
  destruct (resolveField_reference _ _ _ _ Hst) as [n [Hn _]]. rewrite Hn.
  destruct (ft =? fragmentType.NO_RELATIONS); [reflexivity|]. cbn [bind].
  unfold nestedSpread, spreadSuffix.
  destruct (ft =? fragmentType.DEEP); [reflexivity|].
  destruct (ft =? fragmentType.DEFAULT); reflexivity.
Qed.

Lemma printField_Ok_resolved fieldName f ast ft indent o :
  printField fieldName f ast ft indent = Ok o -> exists st, resolveField ast f = Ok st.
Proof.
  unfold printField. destruct (resolveField ast f) as [st|e]; [|discriminate].
  intros _. exists st. reflexivity.
Qed.

Lemma mapR_printField_noRelations ast (fs : list Field) (printed : list (option string)) :
  mapR (fun field => printField (f_name field) field ast fragmentType.NO_RELATIONS 1) fs
  = Ok printed ->
  dropNull printed = map f_name (filter (isScalarOrEnum ast) fs).
Proof.
  revert printed. induction fs as [|f fs IH]; simpl; intros printed Hp.
  - injection Hp as <-. reflexivity.
  - apply bind_Ok_inv in Hp. destruct Hp as [o [Ho Hp]].
    apply bind_Ok_inv in Hp. destruct Hp as [os [Hos Hp]]. injection Hp as <-.
    destruct (printField_Ok_resolved _ _ _ _ _ _ Ho) as [st Hst].
    rewrite (printField_resolved _ _ _ _ _ _ Hst) in Ho. injection Ho as <-.
    destruct (isScalarOrEnum ast f); simpl.
    + rewrite (IH os Hos). reflexivity.
    + destruct (referencedObject ast f); simpl; apply IH; exact Hos.
Qed.

Lemma generateFragments_noRelations ast type fields :
  generateFragments type ast fragmentType.NO_RELATIONS = Ok fields ->
  fields = map f_name (filter (isScalarOrEnum ast) (t_fields type)).
Proof.
  unfold generateFragments. intro H.
  apply bind_Ok_inv in H. destruct H as [printed [Hp H]]. injection H as <-.
  apply mapR_printField_noRelations. exact Hp.
Qed.

(** X5.  The NoRelations field list of a type is the list of the names of
    its fields that classify as scalar or enum, in declaration order:
    nothing else is ever printed in that mode. *)
Theorem noRelations_fields_are_the_scalars :
  forall (ast : Schema) (type : TypeDef) (fields : list string),
    generateFragments type ast fragmentType.NO_RELATIONS = Ok fields ->
    fields = map f_name (filter (isScalarOrEnum ast) (t_fields type)).
Proof.
  intros ast type fields H. unfold generateFragments in H.
  apply bind_Ok_inv in H. destruct H as [printed [Hprinted H]].
  injection H as <-.
  apply (mapR_printField_noRelations ast (t_fields type) printed Hprinted).
Qed.

Lemma noRelations_fields_are_the_scalars_witness :
  ["id"; "title"] = map f_name (filter (isScalarOrEnum Blog.schema) (t_fields Blog.Post)).
Proof.
  apply (noRelations_fields_are_the_scalars Blog.schema Blog.Post ["id"; "title"]).
  reflexivity.
Defined.

Lemma generateFragments_selection ast type ft fields :
  (ft =? fragmentType.NO_RELATIONS) = false ->
  generateFragments type ast ft = Ok fields ->
  fields = map (render (spreadSuffix ft)) (selection ast type).
Proof.
  intros Hft. unfold generateFragments, selection. intro H.
  apply bind_Ok_inv in H. destruct H as [printed [Hp H]]. injection H as <-.
  revert printed Hp. induction (t_fields type) as [|f fs IH]; simpl; intros printed Hp.
  - injection Hp as <-. reflexivity.
  - apply bind_Ok_inv in Hp. destruct Hp as [o [Ho Hp]].
    apply bind_Ok_inv in Hp. destruct Hp as [os [Hos Hp]]. injection Hp as <-.
    destruct (printField_Ok_resolved _ _ _ _ _ _ Ho) as [st Hst].
    rewrite (printField_resolved _ _ _ _ _ _ Hst) in Ho. injection Ho as <-.
    unfold selectionItem. rewrite Hft.
    destruct (isScalarOrEnum ast f); simpl.
    + rewrite (IH os Hos). reflexivity.
    + destruct (referencedObject ast f); simpl; rewrite (IH os Hos); reflexivity.
Qed.

Lemma generateFragments_total ast type ft ft' fields :
  generateFragments type ast ft = Ok fields ->
  exists fields', generateFragments type ast ft' = Ok fields'.
Proof.
  unfold generateFragments. intro H.
  apply bind_Ok_inv in H. destruct H as [printed [Hp _]].
  assert (Hall : exists printed',
             mapR (fun field => printField (f_name field) field ast ft' 1) (t_fields type)
             = Ok printed').
  { revert printed Hp. induction (t_fields type) as [|f fs IH]; simpl; intros printed Hp.
    - exists []. reflexivity.
    - apply bind_Ok_inv in Hp. destruct Hp as [o [Ho Hp]].
      apply bind_Ok_inv in Hp. destruct Hp as [os [Hos _]].
      destruct (printField_Ok_resolved _ _ _ _ _ _ Ho) as [st Hst].
      rewrite (printField_resolved _ _ _ ft' _ _ Hst). cbn [bind].
      destruct (IH os Hos) as [os' ->]. cbn [bind]. eexists. reflexivity. }
  destruct Hall as [printed' ->]. cbn [bind]. eexists. reflexivity.
Qed.

(** X6.  The Default and the Deep field lists of a type render one and
    the same selection, the scalar and enum fields and the fields that
    refer to an object type: whenever the Default list is produced so is
    the Deep list, and they differ in the suffix of the spreads only,
    [NoNesting] against [DeepNesting]. *)
Theorem default_and_deep_render_one_selection :
  forall (ast : Schema) (type : TypeDef) (fields : list string),
    generateFragments type ast fragmentType.DEFAULT = Ok fields ->
    fields = map (render fragmentType.NO_RELATIONS) (selection ast type)
    /\ generateFragments type ast fragmentType.DEEP
       = Ok (map (render fragmentType.DEEP) (selection ast type)).
Proof.
  intros ast type fields H. split.
  - apply (generateFragments_selection ast type fragmentType.DEFAULT); [reflexivity|exact H].
  - destruct (generateFragments_total ast type _ fragmentType.DEEP _ H) as [deep Hdeep].
    rewrite Hdeep. f_equal.
    apply (generateFragments_selection ast type fragmentType.DEEP); [reflexivity|exact Hdeep].
Qed.

Lemma default_and_deep_render_one_selection_witness :
  ["id"; "title"; nestedSpread "author" "User" "NoNesting" 1]
  = map (render fragmentType.NO_RELATIONS) (selection Blog.schema Blog.Post)
  /\ generateFragments Blog.Post Blog.schema fragmentType.DEEP
     = Ok (map (render fragmentType.DEEP) (selection Blog.schema Blog.Post)).
Proof.
  apply (default_and_deep_render_one_selection Blog.schema Blog.Post).
  reflexivity.
Defined.

Lemma constructorNameOf_object (k : NamedKind) :
  (constructorNameOf k =? "GraphQLObjectType") = true <-> k = ObjectKind.
Proof. destruct k; split; intro H; try reflexivity; discriminate H. Qed.

Lemma referencedObject_is_object ast f target :
  referencedObject ast f = Some target ->
  exists type, getType ast target = Some type /\ t_kind type = ObjectKind.
Proof.
  unfold referencedObject.
  destruct (resolveField ast f) as [[field [c|]]|] eqn:Hst; try discriminate.
  destruct (c =? "GraphQLObjectType") eqn:Hc; [|discriminate].
  destruct (resolveField_reference _ _ _ _ Hst) as [n [Hn Hctor]]. rewrite Hn.
  intro H. injection H as <-.
  destruct (getTypeConstructorName_inv _ _ _ Hctor) as [type [Htype ->]].
  exists type. split; [exact Htype|]. apply constructorNameOf_object. exact Hc.
Qed.

Lemma In_dropNull {A : Type} (a : A) (l : list (option A)) :
  In a (dropNull l) <-> In (Some a) l.
Proof.
  induction l as [|o l IH]; simpl; [tauto|].
  destruct o as [b|]; simpl; rewrite IH; split.
  - intros [->|H]; [left; reflexivity|right; exact H].
  - intros [H|H]; [left; congruence|right; exact H].
  - intro H. right. exact H.
  - intros [H|H]; [discriminate H|exact H].
Qed.

(** X7.  Every line of a field list is the name of a field of the type,
    or the block of such a field spreading the fragment of an object type
    that the schema defines; in NoRelations mode it is a name. *)
Theorem body_lines_are_fields_or_object_spreads :
  forall (ast : Schema) (type : TypeDef) (fragmentType : string)
         (fields : list string),
    generateFragments type ast fragmentType = Ok fields ->
    Forall (fun printed =>
              exists f, In f (t_fields type)
                        /\ printedField ast fragmentType (f_name f) printed) fields.
Proof.
  intros ast type ft fields H. apply Forall_forall. intros printed Hin.
  destruct (ft =? fragmentType.NO_RELATIONS) eqn:Hft.
  - apply String.eqb_eq in Hft. subst ft.
    rewrite (generateFragments_noRelations _ _ _ H) in Hin.
    apply in_map_iff in Hin. destruct Hin as [f [<- Hf]].
    apply filter_In in Hf. exists f. split; [tauto|]. left. reflexivity.
  - rewrite (generateFragments_selection _ _ _ _ Hft H) in Hin.
    apply in_map_iff in Hin. destruct Hin as [[fieldName target] [<- Hitem]].
    unfold selection in Hitem. apply In_dropNull, in_map_iff in Hitem.
    destruct Hitem as [f [Hf Hin]]. exists f. split; [exact Hin|].
    unfold selectionItem in Hf. destruct (isScalarOrEnum ast f).
    + injection Hf as <- <-. left. reflexivity.
    + destruct (referencedObject ast f) as [t|] eqn:Href; [|discriminate Hf].
      injection Hf as <- <-. right. split.
      * intro Heq. rewrite Heq in Hft. discriminate Hft.
      * destruct (referencedObject_is_object _ _ _ Href) as [tt [Htt Hk]].
        exists t, tt. repeat split; assumption.
Qed.

Lemma body_lines_are_fields_or_object_spreads_witness :
  Forall (fun printed =>
            exists f, In f (t_fields Blog.Post)
                      /\ printedField Blog.schema fragmentType.DEEP (f_name f) printed)
         ["id"; "title"; nestedSpread "author" "User" "DeepNesting" 1].
Proof.
  apply (body_lines_are_fields_or_object_spreads Blog.schema Blog.Post
           fragmentType.DEEP).
  reflexivity.
Defined.

(** ** The types that get fragments *)

Lemma In_candidates ast n :
  In n (candidates ast)
  <-> (exists type, getType ast n = Some type /\ t_kind type = ObjectKind)
      /\ Str.startsWith "__" n = false.
Proof.
  unfold candidates. rewrite filter_In, filter_In. split.
  - intros [[_ Hobj] Hvis]. split; [|apply negb_true_iff; exact Hvis].
    destruct (getType ast n) as [type|]; [|discriminate Hobj].
    exists type. split; [reflexivity|]. apply constructorNameOf_object. exact Hobj.
  - intros [[type [Htype Hkind]] Hvis]. split; [|rewrite Hvis; reflexivity].
    split.
    + pose proof (getType_name _ _ _ Htype) as Hname.
      unfold getType in Htype. apply find_some in Htype.
      rewrite <- Hname. apply in_map. tauto.
    + rewrite Htype, Hkind. reflexivity.
Qed.

Lemma In_notQuery (q : option string) (l l' : list string) (n : string) :
  filterR (fun typeName => match q with
                           | Some name => Ok (negb (typeName =? name))
                           | None => Throw TypeError
                           end) l = Ok l' ->
  In n l' <-> In n l /\ q <> Some n.
Proof.
  destruct q as [name|].
  - rewrite (filterR_total _ (fun typeName => negb (typeName =? name)))
      by reflexivity.
    intro H. injection H as <-. rewrite filter_In, negb_true_iff, String.eqb_neq.
    split; intros [Hin Hne]; (split; [exact Hin|]); congruence.
  - destruct l as [|x l]; [|discriminate]. intro H. injection H as <-.
    simpl. tauto.
Qed.

Lemma In_notRoot (root : option string) (l : list string) (n : string) :
  In n (filter (fun typeName => match root with
                                | Some name => negb (typeName =? name)
                                | None => true
                                end) l)
  <-> In n l /\ root <> Some n.
Proof.
  rewrite filter_In. destruct root as [name|].
  - rewrite negb_true_iff, String.eqb_neq.
    split; intros [Hin Hne]; (split; [exact Hin|]); congruence.
  - split; intros [Hin _]; (split; [exact Hin|]); [discriminate|reflexivity].
Qed.

Lemma In_sortTypeNames (E : Engine) (l : list string) (n : string) :
  In n (sortTypeNames E l) <-> In n l.
Proof.
  split; intro Hin.
  - apply (Permutation_in _ (Permutation_sym (sortTypeNames_perm E _))). exact Hin.
  - apply (Permutation_in _ (sortTypeNames_perm E _)). exact Hin.
Qed.

Lemma In_typeNames E ast names :
  typeNames E ast = Ok names ->
  forall typeName, In typeName names <-> eligible ast typeName.
Proof.
  intros H n. rewrite typeNames_candidates in H.
  apply bind_Ok_inv in H. destruct H as [notQuery [Hq H]]. injection H as <-.
  rewrite In_sortTypeNames, In_notRoot, In_notRoot, (In_notQuery _ _ _ n Hq),
    In_candidates.
  unfold eligible. tauto.
Qed.

(** X8.  Whenever the list of type names is produced, it holds exactly
    the object types of the schema that are none of the query, mutation
    and subscription roots and whose name does not start with two
    underscores: scalars, enums, interfaces, unions, input objects, root
    types and introspection types never get a fragment, and no other
    object type is left out. *)
Theorem typeNames_are_the_eligible_types :
  forall (E : Engine) (ast : Schema) (names : list string),
    typeNames E ast = Ok names ->
    forall typeName, In typeName names <-> eligible ast typeName.
Proof.
  intros E ast names H typeName. rewrite typeNames_candidates in H.
  apply bind_Ok_inv in H. destruct H as [notQuery [HnotQuery H]].
  injection H as <-.
  rewrite In_sortTypeNames.
  rewrite In_notRoot, In_notRoot.
  rewrite (In_notQuery _ _ _ typeName HnotQuery).
  rewrite In_candidates.
  unfold eligible. tauto.
Qed.

Lemma typeNames_are_the_eligible_types_witness :
  In "Query" ["Post"; "User"; "Comment"] <-> eligible Blog.schema "Query".
Proof.
  apply (typeNames_are_the_eligible_types refEngine Blog.schema). reflexivity.
Defined.

Lemma mapR_In {A B : Type} (f : A -> result B) (l : list A) (l' : list B) (a : A) :
  mapR f l = Ok l' -> In a l -> exists b, f a = Ok b /\ In b l'.
Proof.
  intro H. apply mapR_Ok_Forall2 in H.
  induction H as [|x y l l' Hx _ IH]; simpl; [contradiction|].
  intros [<-|Hin].
  - exists y. split; [exact Hx|left; reflexivity].
  - destruct (IH Hin) as [b [Hb Hin']]. exists b. split; [exact Hb|right; exact Hin'].
Qed.

Lemma printField_doublyWrappedList fieldName f ast ft indent :
  doublyWrappedList (f_type f) = true ->
  printField fieldName f ast ft indent = Throw TypeError.
Proof.
  destruct f as [fname ftype]. cbn [f_type].
  destruct ftype as [n|[n|[n|t|t]|[n|t|t]]|t]; try discriminate; reflexivity.
Qed.

(** X9.  One field whose type is a list of a doubly wrapped type, such as
    [[[Int!]]] or [[[Row]!]], in any type that gets fragments makes the
    whole generation fail with a [TypeError], for every generator and tier
    configuration: the list branch reads [field.name.value] on a wrapper
    node. *)
Theorem doubly_wrapped_list_field_fails_generation :
  forall (E : Engine) (ast : Schema) (generator : string)
         (modelConfigs : option ModelConfigs)
         (typeName : string) (type : TypeDef) (f : Field),
    eligible ast typeName ->
    getType ast typeName = Some type ->
    In f (t_fields type) ->
    doublyWrappedList (f_type f) = true ->
    makeFragments E ast generator modelConfigs = Throw TypeError.
Proof.
  intros E ast g mc typeName type f Heligible Htype Hf Hshape.
  unfold makeFragments, collectFragments.
  destruct (typeNames E ast) as [names|e] eqn:Hnames; cbn [bind].
  2:{ rewrite (typeNames_onlyTypeError E ast e Hnames). reflexivity. }
  destruct (mapR (standardFragment ast) names) as [std|e] eqn:Hstd; cbn [bind].
  2:{ rewrite (onlyTypeError_mapR _ names (standardFragment_onlyTypeError ast) e Hstd).
      reflexivity. }
  exfalso.
  apply (In_typeNames _ _ _ Hnames) in Heligible.
  destruct (mapR_In _ _ _ _ Hstd Heligible) as [o [Ho _]].
  unfold standardFragment in Ho. rewrite Htype in Ho.
  apply bind_Ok_inv in Ho. destruct Ho as [fields [Hfields _]].
  unfold generateFragments in Hfields.
  apply bind_Ok_inv in Hfields. destruct Hfields as [printed [Hprinted _]].
  destruct (mapR_In _ _ _ _ Hprinted Hf) as [p [Hp _]].
  rewrite (printField_doublyWrappedList _ _ _ _ _ Hshape) in Hp. discriminate Hp.
Qed.

Lemma doubly_wrapped_list_field_fails_generation_witness :
  makeFragments refEngine Shapes.gridSchema "graphql" (Some []) = Throw TypeError.
Proof.
  apply (doubly_wrapped_list_field_fails_generation refEngine Shapes.gridSchema
           "graphql" (Some []) "Grid" Shapes.Grid
           (mkField "cells" (ListType (ListType (NonNullType (NamedType "Int")))))).
  - unfold eligible. simpl. repeat split; try discriminate.
    exists Shapes.Grid. split; reflexivity.
  - reflexivity.
  - right. left. reflexivity.
  - reflexivity.
Defined.

Lemma deepFragmentsOf_names E ast modelConfigs modelNames typeName frags :
  deepFragmentsOf E ast modelConfigs modelNames typeName = Ok (Some frags) ->
  Forall (fun f => exists suffix, name f = typeName ++ suffix) frags.
Proof.
  unfold deepFragmentsOf. destruct (getType ast typeName) as [type|] eqn:Ht;
    [|discriminate].
  rewrite (getType_name _ _ _ Ht).
  intro H. apply bind_Ok_inv in H. destruct H as [fields [_ H]].
  destruct fields as [|f0 fields]; [discriminate H|].
  destruct (match modelConfigs with
            | Some configs => getModelConfig configs typeName
            | None => Missing
            end) as [tiers| |].
  - apply bind_Ok_inv in H. destruct H as [fs [Hfs H]].
    injection H as <-. apply mapR_Ok_Forall2 in Hfs.
    induction Hfs as [|tier f tiers fs Hf _ IH]; constructor; [|exact IH].
    unfold tierFragment in Hf. destruct tier as [suffix allowlist].
    apply bind_Ok_inv in Hf. destruct Hf as [text [_ Hf]]. injection Hf as <-.
    exists suffix. reflexivity.
  - injection H as <-. constructor.
  - apply bind_Ok_inv in H. destruct H as [text [_ H]].
    injection H as <-. constructor; [|constructor]. exists "Full". reflexivity.
Qed.

Lemma In_flatten {A : Type} (a : A) (arr : list (option (list A))) :
  In a (flatten arr) -> exists sub, In (Some sub) arr /\ In a sub.
Proof.
  induction arr as [|o arr IH]; simpl; [contradiction|].
  destruct o as [sub|].
  - intro H. apply in_app_or in H. destruct H as [H|H].
    + exists sub. split; [left; reflexivity|exact H].
    + destruct (IH H) as [sub' [Hs Ha]]. exists sub'. split; [right|]; assumption.
  - intro H. destruct (IH H) as [sub' [Hs Ha]]. exists sub'. split; [right|]; assumption.
Qed.

Lemma mapR_In_result {A B : Type} (f : A -> result B) (l : list A) (l' : list B) (b : B) :
  mapR f l = Ok l' -> In b l' -> exists a, In a l /\ f a = Ok b.
Proof.
  intro H. apply mapR_Ok_Forall2 in H.
  induction H as [|x y l l' Hx _ IH]; simpl; [contradiction|].
  intros [<-|Hin].
  - exists x. split; [left; reflexivity|exact Hx].
  - destruct (IH Hin) as [a [Ha Hfa]]. exists a. split; [right|]; assumption.
Qed.

(** X10.  Every fragment of a run belongs to an eligible type: a Default
    or NoRelations fragment carries the name of one, and the name of a
    Deep fragment is such a name followed by a suffix.  No fragment is
    ever produced for a root type or an introspection type. *)
Theorem fragments_belong_to_eligible_types :
  forall (E : Engine) (ast : Schema) (modelConfigs : option ModelConfigs)
         (standard noRelations deep : list Fragment),
    collectFragments E ast modelConfigs = Ok (standard, noRelations, deep) ->
    (forall f, In f standard -> eligible ast (name f))
    /\ (forall f, In f noRelations -> eligible ast (name f))
    /\ (forall f, In f deep ->
          exists typeName suffix,
            eligible ast typeName /\ name f = typeName ++ suffix).
Proof.
  intros E ast mc std nr deep H. apply collectFragments_inv in H.
  destruct H as [names [s [n [mn [d [Hnames [Hs [-> [Hn [-> [_ [Hd ->]]]]]]]]]]]].
  pose proof (In_typeNames _ _ _ Hnames) as Hel.
  split; [|split].
  - intros f Hf. destruct (In_dropNull_mapR _ _ _ _ Hs Hf) as [x [Hx Hfx]].
    rewrite (standardFragment_name _ _ _ Hfx). apply Hel. exact Hx.
  - intros f Hf. destruct (In_dropNull_mapR _ _ _ _ Hn Hf) as [x [Hx Hfx]].
    rewrite (noRelationsFragment_name _ _ _ Hfx). apply Hel. exact Hx.
  - intros f Hf. destruct (In_flatten _ _ Hf) as [sub [Hsub Hin]].
    destruct (mapR_In_result _ _ _ _ Hd Hsub) as [x [Hx Hfx]].
    pose proof (deepFragmentsOf_names _ _ _ _ _ _ Hfx) as Hnm.
    rewrite Forall_forall in Hnm. destruct (Hnm f Hin) as [suffix Hname].
    exists x, suffix. split; [apply Hel; exact Hx|exact Hname].
Qed.

Lemma fragments_belong_to_eligible_types_witness :
  (forall f, In f (fst (fst Blog.tieredLists)) -> eligible Blog.schema (name f))
  /\ (forall f, In f (snd (fst Blog.tieredLists)) -> eligible Blog.schema (name f))
  /\ (forall f, In f (snd Blog.tieredLists) ->
        exists typeName suffix,
          eligible Blog.schema typeName /\ name f = typeName ++ suffix).
Proof.
  apply (fragments_belong_to_eligible_types refEngine Blog.schema (Some Blog.tiers)).
  vm_compute. reflexivity.
Defined.

(** X11.  Whenever the lists of a run are produced, every eligible type
    with at least one scalar or enum field has its NoRelations fragment
    in the run, and its Default fragment as well; both list the fields in
    declaration order, the NoRelations one exactly the scalar and enum
    fields. *)
Theorem eligible_types_with_scalars_get_fragments :
  forall (E : Engine) (ast : Schema) (modelConfigs : option ModelConfigs)
         (standard noRelations deep : list Fragment)
         (typeName : string) (type : TypeDef),
    collectFragments E ast modelConfigs = Ok (standard, noRelations, deep) ->
    eligible ast typeName ->
    getType ast typeName = Some type ->
    filter (isScalarOrEnum ast) (t_fields type) <> [] ->
    In (mkFragment typeName
          ("fragment " ++ typeName ++ fragmentType.NO_RELATIONS ++ " on " ++ typeName
           ++ block (map f_name (filter (isScalarOrEnum ast) (t_fields type)))
           ++ Str.nl)) noRelations
    /\ In (mkFragment typeName
             ("fragment " ++ typeName ++ " on " ++ typeName
              ++ block (map (render fragmentType.NO_RELATIONS) (selection ast type))
              ++ Str.nl)) standard.
Proof.
  intros E ast mc std nr deep typeName type H Hel Htype Hscalars.
  apply collectFragments_inv in H.
  destruct H as [names [s [n [mn [d [Hnames [Hs [-> [Hn [-> _]]]]]]]]]].
  apply (In_typeNames _ _ _ Hnames) in Hel.
  pose proof (getType_name _ _ _ Htype) as Hname.
  destruct (mapR_In _ _ _ _ Hn Hel) as [o [Ho Hino]].
  destruct (mapR_In _ _ _ _ Hs Hel) as [o' [Ho' Hino']].
  unfold noRelationsFragment in Ho. rewrite Htype, Hname in Ho.
  unfold standardFragment in Ho'. rewrite Htype, Hname in Ho'.
  destruct (generateFragments type ast fragmentType.NO_RELATIONS) as [nf|] eqn:Hnf;
    [|discriminate Ho].
  destruct (generateFragments type ast fragmentType.DEFAULT) as [df|] eqn:Hdf;
    [|discriminate Ho'].
  pose proof (generateFragments_noRelations _ _ _ Hnf) as Hnf'.
  pose proof (generateFragments_selection _ _ fragmentType.DEFAULT _ eq_refl Hdf) as Hdf'.
  change (spreadSuffix fragmentType.DEFAULT) with fragmentType.NO_RELATIONS in Hdf'.
  assert (Hsel : selection ast type <> []).
  { unfold selection. destruct (filter (isScalarOrEnum ast) (t_fields type))
      as [|f fs] eqn:Hfilter; [contradiction|].
    assert (Hf : In f (filter (isScalarOrEnum ast) (t_fields type)))
      by (rewrite Hfilter; left; reflexivity).
    apply filter_In in Hf. destruct Hf as [Hf Hsc].
    intro Hnil.
    assert (Hitem : In (f_name f, @None string)
                       (dropNull (map (selectionItem ast) (t_fields type)))).
    { apply In_dropNull, in_map_iff. exists f. split; [|exact Hf].
      unfold selectionItem. rewrite Hsc. reflexivity. }
    rewrite Hnil in Hitem. contradiction. }
  cbn [bind] in Ho, Ho'. subst nf df. split.
  - apply In_dropNull.
    destruct (map f_name (filter (isScalarOrEnum ast) (t_fields type))) eqn:Hm.
    + apply map_eq_nil in Hm. contradiction.
    + injection Ho as <-. exact Hino.
  - apply In_dropNull.
    destruct (map (render fragmentType.NO_RELATIONS) (selection ast type)) eqn:Hm.
    + apply map_eq_nil in Hm. contradiction.
    + injection Ho' as <-. exact Hino'.
Qed.

Lemma eligible_types_with_scalars_get_fragments_witness :
  In (mkFragment "User"
        ("fragment " ++ "User" ++ fragmentType.NO_RELATIONS ++ " on " ++ "User"
         ++ block (map f_name (filter (isScalarOrEnum Blog.schema) (t_fields Blog.User)))
         ++ Str.nl)) (snd (fst Blog.tieredLists))
  /\ In (mkFragment "User"
           ("fragment " ++ "User" ++ " on " ++ "User"
            ++ block (map (render fragmentType.NO_RELATIONS)
                        (selection Blog.schema Blog.User))
            ++ Str.nl)) (fst (fst Blog.tieredLists)).
Proof.
  apply (eligible_types_with_scalars_get_fragments refEngine Blog.schema
           (Some Blog.tiers) (fst (fst Blog.tieredLists)) (snd (fst Blog.tieredLists))
           (snd Blog.tieredLists) "User" Blog.User).
  - vm_compute. reflexivity.
  - unfold eligible. simpl. repeat split; try discriminate.
    exists Blog.User. split; reflexivity.
  - reflexivity.
  - discriminate.
Defined.

(** ** The single-file outputs *)

Lemma startsWith_append (p x : string) : Str.startsWith p (p ++ x) = true.
Proof.
  induction p as [|a p IH]; [reflexivity|].
  simpl. rewrite Ascii.eqb_refl, IH. reflexivity.
Qed.

Lemma startsWith_append_keep (p a b : string) :
  Str.startsWith p a = true -> Str.startsWith p (a ++ b) = true.
Proof.
  revert a. induction p as [|x p IH]; intros a H; [reflexivity|].
  destruct a as [|y a]; [discriminate H|].
  simpl in *. apply andb_true_iff in H. destruct H as [Hxy H].
  rewrite Hxy, (IH a H). reflexivity.
Qed.

Lemma includes_append_keep (p a b : string) :
  Str.includes p a = true -> Str.includes p (a ++ b) = true.
Proof.
  induction a as [|y a IH]; intro H.
  - cbn [Str.includes] in H. rewrite orb_false_r in H.
    destruct p; [|discriminate H]. destruct b; reflexivity.
  - cbn [Str.includes] in H. apply orb_true_iff in H.
    change (String y a ++ b) with (String y (a ++ b)). cbn [Str.includes].
    apply orb_true_iff. destruct H as [H|H].
    + left. apply (startsWith_append_keep p (String y a) b H).
    + right. apply IH. exact H.
Qed.

Lemma includes_prefix (p x : string) : Str.includes p (p ++ x) = true.
Proof.
  destruct (p ++ x) eqn:Hpx; cbn [Str.includes]; rewrite <- Hpx, startsWith_append;
    reflexivity.
Qed.

Lemma join_empty_cons (x : string) (l : list string) :
  Str.join EmptyString (x :: l) = x ++ Str.join EmptyString l.
Proof. destruct l; simpl; [rewrite append_empty_r|]; reflexivity. Qed.

Lemma includes_join (p : string) (entry : Fragment -> string) (l : list Fragment)
    (f : Fragment) :
  In f l -> Str.includes p (entry f) = true ->
  Str.includes p (Str.join EmptyString (map entry l)) = true.
Proof.
  intros Hin Hp. induction l as [|g l IH]; [contradiction|].
  cbn [map]. rewrite join_empty_cons. destruct Hin as [->|Hin].
  - apply includes_append_keep. exact Hp.
  - apply includes_append_r. apply IH. exact Hin.
Qed.

Ltac find_section H :=
  repeat first [ apply includes_append_keep; exact H | apply includes_append_r ].

(** X12.  Both single-file outputs hold the text of every fragment of the
    run, Default, NoRelations and Deep alike: nothing that was generated
    is left out of the GraphQL document or of the JavaScript module. *)
Theorem single_file_outputs_hold_every_fragment :
  forall (standard noRelations deep : list Fragment) (f : Fragment),
    In f standard \/ In f noRelations \/ In f deep ->
    Str.includes (fragment f) (graphqlDocument standard noRelations deep) = true
    /\ Str.includes (fragment f) (jsModule standard noRelations deep) = true.
Proof.
  intros std nr deep f Hin. split.
  - assert (Hentry : Str.includes (fragment f) (Str.nl ++ fragment f) = true).
    { apply includes_append_r. rewrite <- (append_empty_r (fragment f)) at 2.
      apply includes_prefix. }
    unfold graphqlDocument.
    destruct Hin as [Hin|[Hin|Hin]];
      pose proof (includes_join _ (fun g => Str.nl ++ fragment g) _ _ Hin Hentry) as HJ;
      find_section HJ.
  - assert (Hentry : forall suffix,
               Str.includes (fragment f)
                 (Str.nl ++ "export const " ++ name f ++ suffix ++ "Fragment = `"
                  ++ fragment f ++ "`" ++ Str.nl) = true).
    { intro suffix. do 5 apply includes_append_r. apply includes_prefix. }
    unfold jsModule.
    destruct Hin as [Hin|[Hin|Hin]].
    + pose proof (includes_join _
                    (fun g => Str.nl ++ "export const " ++ name g ++ fragmentType.DEFAULT
                              ++ "Fragment = `" ++ fragment g ++ "`" ++ Str.nl)
                    _ _ Hin (Hentry _)) as HJ.
      find_section HJ.
    + pose proof (includes_join _
                    (fun g => Str.nl ++ "export const " ++ name g
                              ++ fragmentType.NO_RELATIONS
                              ++ "Fragment = `" ++ fragment g ++ "`" ++ Str.nl)
                    _ _ Hin (Hentry _)) as HJ.
      find_section HJ.
    + pose proof (includes_join _
                    (fun g => Str.nl ++ "export const " ++ name g ++ fragmentType.DEEP
                              ++ "Fragment = `" ++ fragment g ++ "`" ++ Str.nl)
                    _ _ Hin (Hentry _)) as HJ.
      find_section HJ.
Qed.

Lemma single_file_outputs_hold_every_fragment_witness :
  let f := mkFragment "PostPublicListing"
             ("fragment PostPublicListing on Post {" ++ Str.nl
              ++ "  id" ++ Str.nl ++ "  title" ++ Str.nl ++ "}") in
  Str.includes (fragment f)
    (graphqlDocument (fst (fst Blog.tieredLists)) (snd (fst Blog.tieredLists))
       (snd Blog.tieredLists)) = true
  /\ Str.includes (fragment f)
       (jsModule (fst (fst Blog.tieredLists)) (snd (fst Blog.tieredLists))
          (snd Blog.tieredLists)) = true.
Proof.
  apply (single_file_outputs_hold_every_fragment (fst (fst Blog.tieredLists))
           (snd (fst Blog.tieredLists)) (snd Blog.tieredLists)).
  right. right. left. reflexivity.
Defined.

(** ** The allow-list of a tier *)

Lemma leadingIdentifier_append (x y : string) :
  absent " " x = true -> Spec.leadingIdentifier (x ++ String " " y) = x.
Proof.
  induction x as [|a x IH]; simpl; intro H.
  - destruct (Ascii.ascii_dec " " " "); [reflexivity|contradiction].
  - apply andb_true_iff in H. destruct H as [Ha Hx]. apply negb_true_iff in Ha.
    destruct (Ascii.ascii_dec a " ") as [->|_].
    + rewrite Ascii.eqb_refl in Ha. discriminate Ha.
    + rewrite (IH Hx). reflexivity.
Qed.

Lemma leadingIdentifier_absent (x : string) :
  absent " " x = true -> Spec.leadingIdentifier x = x.
Proof.
  induction x as [|a x IH]; simpl; intro H; [reflexivity|].
  apply andb_true_iff in H. destruct H as [Ha Hx]. apply negb_true_iff in Ha.
  destruct (Ascii.ascii_dec a " ") as [->|_].
  - rewrite Ascii.eqb_refl in Ha. discriminate Ha.
  - rewrite (IH Hx). reflexivity.
Qed.

(** The first word of a printed field is the name of the field. *)
Lemma firstWord_printed fieldName f ast ft indent printed :
  absent " " fieldName = true ->
  printField fieldName f ast ft indent = Ok (Some printed) ->
  firstWord printed = fieldName.
Proof.
  intros Hname H. destruct (printField_Ok_resolved _ _ _ _ _ _ H) as [st Hst].
  rewrite (printField_resolved _ _ _ _ _ _ Hst) in H. injection H as H.
  rewrite firstWord_leadingIdentifier.
  destruct (isScalarOrEnum ast f).
  - injection H as <-. apply leadingIdentifier_absent. exact Hname.
  - destruct (referencedObject ast f) as [target|]; [|discriminate H].
    destruct (ft =? fragmentType.NO_RELATIONS); [discriminate H|].
    injection H as <-. unfold nestedSpread.
    change (fieldName ++ " {" ++ indentedLine (indent + 1) ++ "..."
            ++ (target ++ spreadSuffix ft) ++ indentedLine indent ++ "}")
      with (fieldName ++ String " " ("{" ++ indentedLine (indent + 1) ++ "..."
            ++ (target ++ spreadSuffix ft) ++ indentedLine indent ++ "}")).
    apply leadingIdentifier_append. exact Hname.
Qed.

(** X13.  The allow-list of a tier selects fields by their name: filtering
    the printed Deep fields of a type by the allow-list gives what is
    printed for the type restricted to the fields whose name is on the
    list.  (Field names hold no space.) *)
Theorem allow_list_selects_by_field_name :
  forall (ast : Schema) (type : TypeDef) (allowlist fields : list string),
    Forall (fun f => absent " " (f_name f) = true) (t_fields type) ->
    generateFragments type ast fragmentType.DEEP = Ok fields ->
    generateFragments
      (mkType (t_name type) (t_kind type)
              (filter (fun f => allowed allowlist (f_name f)) (t_fields type)))
      ast fragmentType.DEEP
    = Ok (filter (fun printed => allowed allowlist (firstWord printed)) fields).
Proof.
  intros ast type allowlist fields Hnames. unfold generateFragments. cbn [t_fields].
  intro H. apply bind_Ok_inv in H. destruct H as [printed [Hp H]]. injection H as <-.
  revert printed Hp. induction Hnames as [|f fs Hf _ IH]; simpl; intros printed Hp.
  - injection Hp as <-. reflexivity.
  - apply bind_Ok_inv in Hp. destruct Hp as [o [Ho Hp]].
    apply bind_Ok_inv in Hp. destruct Hp as [os [Hos Hp]]. injection Hp as <-.
    specialize (IH os Hos).
    apply bind_Ok_inv in IH. destruct IH as [os' [Hos' IH]]. injection IH as IH.
    destruct (allowed allowlist (f_name f)) eqn:Hallowed; simpl.
    + rewrite Ho, Hos'. simpl. destruct o as [p|]; simpl; [|rewrite IH; reflexivity].
      rewrite (firstWord_printed _ _ _ _ _ _ Hf Ho), Hallowed, IH. reflexivity.
    + rewrite Hos'. simpl. destruct o as [p|]; simpl; [|rewrite IH; reflexivity].
      rewrite (firstWord_printed _ _ _ _ _ _ Hf Ho), Hallowed, IH. reflexivity.
Qed.

Lemma allow_list_selects_by_field_name_witness :
  generateFragments
    (mkType "Post" ObjectKind
            (filter (fun f => allowed ["id"; "author"; "rating"] (f_name f))
                    (t_fields Blog.Post)))
    Blog.schema fragmentType.DEEP
  = Ok (filter (fun printed => allowed ["id"; "author"; "rating"] (firstWord printed))
               ["id"; "title"; nestedSpread "author" "User" "DeepNesting" 1]).
Proof.
  apply (allow_list_selects_by_field_name Blog.schema Blog.Post
           ["id"; "author"; "rating"]).
  - repeat constructor.
  - reflexivity.
Defined.

(** X14.  A tier none of whose allow-listed names is a deep field, and
    whose label calls for no leading spread, still yields a fragment: its
    selection is empty.  (The configuration keys are type names and the
    text holds no [DeepNesting].) *)
Theorem tier_without_allowed_field_is_empty :
  forall (E : Engine) (modelNames : list string) (typeName suffix : string)
         (fields allowlist : list string),
    Forall (fun key => Str.allWordChars key = true) modelNames ->
    (forall f, In f fields -> allowed allowlist (firstWord f) = false) ->
    Spec.leadingSpread typeName suffix = None ->
    let text := "fragment " ++ typeName ++ suffix ++ " on " ++ typeName ++ " {"
                ++ Str.nl ++ "  " ++ Str.nl ++ "}" in
    Str.includes "DeepNesting" text = false ->
    tierFragment E modelNames typeName fields (suffix, allowlist)
    = Ok (mkFragment (typeName ++ suffix) text).
Proof.
  intros E modelNames typeName suffix fields allowlist Hkeys Hnone Hspread text Hclean.
  unfold tierFragment. rewrite tier_template.
  assert (Htext : Spec.tierText typeName suffix allowlist fields = text).
  { unfold Spec.tierText, Spec.tierBody. rewrite Hspread, <- tier_filter.
    replace (filter (fun f => allowed allowlist (firstWord f)) fields) with (@nil string).
    - reflexivity.
    - symmetry. induction fields as [|f fs IH]; [reflexivity|].
      simpl. rewrite (Hnone f (or_introl eq_refl)). apply IH.
      intros g Hg. apply Hnone. right. exact Hg. }
  rewrite Htext, (rewriteDeepNesting_absent _ _ _ _ Hkeys Hclean). reflexivity.
Qed.

Lemma tier_without_allowed_field_is_empty_witness :
  tierFragment refEngine ["Post"] "Post" ["id"; "title"] ("PublicListing", ["slug"])
  = Ok (mkFragment ("Post" ++ "PublicListing")
          ("fragment " ++ "Post" ++ "PublicListing" ++ " on " ++ "Post" ++ " {"
           ++ Str.nl ++ "  " ++ Str.nl ++ "}")).
Proof.
  apply (tier_without_allowed_field_is_empty refEngine ["Post"] "Post" "PublicListing"
           ["id"; "title"] ["slug"]).
  - repeat constructor.
  - intros f [<-|[<-|[]]]; reflexivity.
  - reflexivity.
  - reflexivity.
Defined.

(** ** The passes succeed together *)

Lemma mapR_succeeds {A B : Type} (f : A -> result B) (l : list A) :
  (forall a, In a l -> exists b, f a = Ok b) -> exists l', mapR f l = Ok l'.
Proof.
  induction l as [|a l IH]; intro H; [exists []; reflexivity|].
  destruct (H a (or_introl eq_refl)) as [b Hb].
  destruct IH as [l' Hl']; [intros x Hx; apply H; right; exact Hx|].
  exists (b :: l'). simpl. rewrite Hb, Hl'. reflexivity.
Qed.

Lemma standardFragment_Ok_generate ast typeName o :
  standardFragment ast typeName = Ok o ->
  exists type fields,
    getType ast typeName = Some type
    /\ generateFragments type ast fragmentType.DEFAULT = Ok fields.
Proof.
  unfold standardFragment. destruct (getType ast typeName) as [type|]; [|discriminate].
  intro H. apply bind_Ok_inv in H. destruct H as [fields [Hf _]].
  exists type, fields. split; [reflexivity|exact Hf].
Qed.

(** X15.  The three passes succeed together: when the names are produced
    and the Default pass goes through, and the keys of the tier
    configuration are made of word characters (as type names are), the
    NoRelations and Deep passes go through as well and the run returns
    its three lists.  The only failures of a run with a configuration are
    those of the schema walk. *)
Theorem passes_succeed_together :
  forall (E : Engine) (ast : Schema) (configs : ModelConfigs)
         (names : list string) (standard : list (option Fragment)),
    Forall (fun key => Str.allWordChars key = true) (map fst configs) ->
    typeNames E ast = Ok names ->
    mapR (standardFragment ast) names = Ok standard ->
    exists noRelations deep,
      collectFragments E ast (Some configs) = Ok (dropNull standard, noRelations, deep).
Proof.
  intros E ast configs names std Hkeys Hnames Hstd.
  assert (Hgen : forall x, In x names ->
                   exists type fields,
                     getType ast x = Some type
                     /\ generateFragments type ast fragmentType.DEFAULT = Ok fields).
  { intros x Hx. destruct (mapR_In _ _ _ _ Hstd Hx) as [o [Ho _]].
    apply (standardFragment_Ok_generate _ _ _ Ho). }
  destruct (mapR_succeeds (noRelationsFragment ast) names) as [nr Hnr].
  { intros x Hx. destruct (Hgen x Hx) as [type [fields [Htype Hf]]].
    destruct (generateFragments_total _ _ _ fragmentType.NO_RELATIONS _ Hf) as [nf Hnf].
    unfold noRelationsFragment. rewrite Htype, Hnf. cbn [bind].
    destruct nf; eexists; reflexivity. }
  destruct (mapR_succeeds (deepFragmentsOf E ast (Some configs) (map fst configs)) names)
    as [d Hd].
  { intros x Hx. destruct (Hgen x Hx) as [type [fields [Htype Hf]]].
    destruct (generateFragments_total _ _ _ fragmentType.DEEP _ Hf) as [df Hdf].
    unfold deepFragmentsOf. rewrite Htype, Hdf. cbn [bind].
    destruct df as [|f0 df]; [eexists; reflexivity|].
    destruct (getModelConfig configs (t_name type)) as [tiers| |].
    - rewrite (mapR_total _ (fun tier =>
                 mkFragment (t_name type ++ fst tier)
                   (Spec.rewrite (map fst configs) (fst tier)
                      (Spec.tierText (t_name type) (fst tier) (snd tier) (f0 :: df))))).
      + eexists. reflexivity.
      + intros [tier allowlist] _. unfold tierFragment.
        rewrite tier_template, (literal_rewrite E _ tier _ Hkeys). reflexivity.
    - eexists. reflexivity.
    - rewrite (literal_rewrite E _ EmptyString _ Hkeys). eexists. reflexivity. }
  exists (dropNull nr), (flatten d).
  unfold collectFragments. rewrite Hnames. cbn [bind].
  rewrite Hstd. cbn [bind]. rewrite Hnr. cbn [bind objectKeys].
  rewrite Hd. reflexivity.
Qed.

Lemma passes_succeed_together_witness :
  exists noRelations deep,
    collectFragments refEngine Blog.schema (Some Blog.tiers)
    = Ok (dropNull [ Some (mkFragment "Post"
                             ("fragment Post on Post"
                              ++ block ["id"; "title";
                                        nestedSpread "author" "User" "NoNesting" 1]
                              ++ Str.nl));
                     Some (mkFragment "User"
                             ("fragment User on User" ++ block ["id"; "role"]
                              ++ Str.nl));
                     Some (mkFragment "Comment"
                             ("fragment Comment on Comment"
                              ++ block [nestedSpread "post" "Post" "NoNesting" 1]
                              ++ Str.nl)) ],
          noRelations, deep).
Proof.
  apply (passes_succeed_together refEngine Blog.schema Blog.tiers
           ["Post"; "User"; "Comment"]).
  - repeat constructor.
  - reflexivity.
  - reflexivity.
Defined.

(** ** Resolution of the input schema *)

Lemma join_snoc (sep x : string) (l : list string) :
  l <> [] -> Str.join sep (l ++ [x]) = Str.join sep l ++ sep ++ x.
Proof.
  induction l as [|a l IH]; intro H; [contradiction|].
  destruct l as [|b l]; [reflexivity|].
  change ((a :: b :: l) ++ [x])%list with (a :: ((b :: l) ++ [x]))%list.
  rewrite join_cons by discriminate. rewrite IH by discriminate.
  rewrite (join_cons sep a (b :: l)) by discriminate.
  rewrite !append_assoc. reflexivity.
Qed.

(** The last dot-separated segment of a path is the whole path, or what
    follows its last dot. *)
Lemma getExtension_inv (path extension : string) :
  Resolve.getExtension path = extension ->
  path = extension \/ exists stem, path = stem ++ "." ++ extension.
Proof.
  unfold Resolve.getExtension. intro H.
  pose proof (join_split "." path) as Hjoin.
  destruct (exists_last (split_nonempty "." path)) as [l [x Hl]].
  rewrite Hl in H, Hjoin. rewrite last_last in H. subst x.
  destruct l as [|a l].
  - left. symmetry. exact Hjoin.
  - right. exists (Str.join "." (a :: l)).
    rewrite <- Hjoin. apply join_snoc. discriminate.
Qed.

(** X16.  A path that [determineInputSchema] returns exists, was echoed,
    and is [graphql], [gql] or ends in [.graphql] or [.gql]: no other
    schema file is ever handed to the generator. *)
Theorem determineInputSchema_returns_graphql_files :
  forall (existsSync : string -> bool) (project : Resolve.Project)
         (schemaPath : option string) (log : list string) (path : string),
    Resolve.determineInputSchema existsSync project schemaPath
    = (log, Resolve.Returns path) ->
    log = [path]
    /\ existsSync path = true
    /\ (path = "graphql" \/ path = "gql"
        \/ exists stem, path = stem ++ ".graphql" \/ path = stem ++ ".gql").
Proof.
  intros existsSync project arg log path. unfold Resolve.determineInputSchema.
  destruct (Resolve.chooseSchemaPath project arg) as [p|message]; [|discriminate].
  destruct (Resolve.getExtension p =? "graphql") eqn:Hgraphql;
    destruct (Resolve.getExtension p =? "gql") eqn:Hgql; cbn [negb andb];
    try discriminate;
    (destruct (existsSync p) eqn:Hexists; [|discriminate]);
    intro H; injection H as <- <-; (split; [reflexivity|]); (split; [exact Hexists|]).
  - apply String.eqb_eq, getExtension_inv in Hgraphql.
    destruct Hgraphql as [->|[stem ->]]; [tauto|]. right. right. exists stem. tauto.
  - apply String.eqb_eq, getExtension_inv in Hgraphql.
    destruct Hgraphql as [->|[stem ->]]; [tauto|]. right. right. exists stem. tauto.
  - apply String.eqb_eq, getExtension_inv in Hgql.
    destruct Hgql as [->|[stem ->]]; [tauto|]. right. right. exists stem. tauto.
Qed.

Lemma determineInputSchema_returns_graphql_files_witness :
  ["src/schema.graphql"] = ["src/schema.graphql"]
  /\ (fun p => p =? "src/schema.graphql") "src/schema.graphql" = true
  /\ ("src/schema.graphql" = "graphql" \/ "src/schema.graphql" = "gql"
      \/ exists stem, "src/schema.graphql" = stem ++ ".graphql"
                      \/ "src/schema.graphql" = stem ++ ".gql").
Proof.
  apply (determineInputSchema_returns_graphql_files
           (fun p => p =? "src/schema.graphql")
           (Resolve.mkProject None None (Some "src/schema.graphql")) None).
  reflexivity.
Defined.

(** X17.  When the project configures a [prepare-bundle] output and no
    path is passed in, that output is the only candidate: if the file is
    missing the resolution fails, after echoing the path, and the
    project's own [schemaPath] is not tried. *)
Theorem determineInputSchema_does_not_fall_back :
  forall (existsSync : string -> bool) (project : Resolve.Project) (bundle : string),
    Resolve.prepare_bundle_output project = Some bundle ->
    existsSync bundle = false ->
    exists message,
      Resolve.determineInputSchema existsSync project None
      = ([bundle], Resolve.Raises message).
Proof.
  intros existsSync project bundle Hbundle Hmissing.
  unfold Resolve.determineInputSchema, Resolve.chooseSchemaPath.
  rewrite Hbundle, Hmissing.
  destruct (negb (Resolve.getExtension bundle =? "graphql")
            && negb (Resolve.getExtension bundle =? "gql"));
    eexists; reflexivity.
Qed.

Lemma determineInputSchema_does_not_fall_back_witness :
  exists message,
    Resolve.determineInputSchema (fun p => p =? "src/schema.graphql")
      (Resolve.mkProject (Some "dist/bundle.graphql") None (Some "src/schema.graphql"))
      None
    = (["dist/bundle.graphql"], Resolve.Raises message).
Proof.
  apply (determineInputSchema_does_not_fall_back (fun p => p =? "src/schema.graphql")
           (Resolve.mkProject (Some "dist/bundle.graphql") None
                              (Some "src/schema.graphql"))
           "dist/bundle.graphql");
    reflexivity.
Defined.

(** ** Indentation and the single-file generators *)

Lemma spaces_append (n m : nat) : spaces n ++ spaces m = spaces (n + m).
Proof. induction n as [|n IH]; simpl; [reflexivity|]. rewrite IH. reflexivity. Qed.

(** X18.  [indentedLine(level)] is a newline followed by two spaces per
    level. *)
Theorem indentedLine_is_newline_and_spaces :
  forall level : nat, indentedLine level = Str.nl ++ spaces (2 * level).
Proof.
  induction level as [|level IH]; [reflexivity|].
  cbn [indentedLine]. rewrite IH, append_assoc.
  change "  " with (spaces 2). rewrite spaces_append.
  replace (2 * level + 2) with (2 * S level) by lia. reflexivity.
Qed.

(** X19.  For every generator other than [multi-file-graphql], a run
    whose lists are produced writes exactly one file, at the path
    determined for the generator's extension, and reports that path: the
    JavaScript module for [js], the GraphQL document otherwise. *)
Theorem single_file_generators_write_one_file :
  forall (E : Engine) (generator : string)
         (determineFragmentsOutputPath : string -> string)
         (ast : Schema) (modelConfigs : option ModelConfigs)
         (standard noRelations deep : list Fragment),
    generator <> "multi-file-graphql" ->
    collectFragments E ast modelConfigs = Ok (standard, noRelations, deep) ->
    let outputPath := determineFragmentsOutputPath (extensionFor generator) in
    processFragments E generator determineFragmentsOutputPath ast modelConfigs
    = Ok ([(outputPath,
            if generator =? "js" then jsModule standard noRelations deep
            else graphqlDocument standard noRelations deep)],
          mkExtension outputPath generator).
Proof.
  intros E g det ast mc s n d Hmulti H outputPath.
  apply String.eqb_neq in Hmulti.
  unfold processFragments, makeFragments. rewrite H. cbn [bind assemble].
  rewrite Hmulti. destruct (g =? "js"); reflexivity.
Qed.

Lemma single_file_generators_write_one_file_witness :
  processFragments refEngine "js" (fun extension => "src/blog.fragments." ++ extension)
    Blog.schema (Some Blog.tiers)
  = Ok ([("src/blog.fragments." ++ "js",
          jsModule (fst (fst Blog.tieredLists)) (snd (fst Blog.tieredLists))
            (snd Blog.tieredLists))],
        mkExtension ("src/blog.fragments." ++ "js") "js").
Proof.
  apply (single_file_generators_write_one_file refEngine "js"
           (fun extension => "src/blog.fragments." ++ extension)
           Blog.schema (Some Blog.tiers)
           (fst (fst Blog.tieredLists)) (snd (fst Blog.tieredLists))
           (snd Blog.tieredLists)).
  - discriminate.
  - vm_compute. reflexivity.
Defined.

(** ** Fields and types that silently get nothing *)

Lemma printField_nonNullListOfWrapped fieldName f ast ft indent :
  nonNullListOfWrapped (f_type f) = true ->
  printField fieldName f ast ft indent = Ok None.
Proof.
  destruct f as [fname ftype]. cbn [f_type].
  destruct ftype as [n|t|[n|[n|t|t]|t]]; try discriminate; reflexivity.
Qed.

(** X20.  A field declared as a non-null list of wrapped elements, such as
    [tags: [String!]!], never reaches a fragment, whatever the element
    type and the mode: the field list of a type is the field list of the
    type without these fields. *)
Theorem nonnull_lists_of_wrapped_elements_are_dropped :
  forall (ast : Schema) (type : TypeDef) (fragmentType : string),
    generateFragments type ast fragmentType
    = generateFragments
        (mkType (t_name type) (t_kind type)
                (filter (fun f => negb (nonNullListOfWrapped (f_type f)))
                        (t_fields type)))
        ast fragmentType.
Proof.
  intros ast type ft. unfold generateFragments. cbn [t_fields].
  induction (t_fields type) as [|f fs IH]; [reflexivity|].
  cbn [filter mapR].
  destruct (nonNullListOfWrapped (f_type f)) eqn:Hshape; cbn [negb].
  - rewrite (printField_nonNullListOfWrapped _ _ _ _ _ Hshape). cbn [bind].
    rewrite <- IH.
    destruct (mapR (fun field => printField (f_name field) field ast ft 1) fs);
      reflexivity.
  - cbn [mapR].
    destruct (printField (f_name f) f ast ft 1) as [o|e]; [|reflexivity].
    cbn [bind].
    destruct (mapR (fun field => printField (f_name field) field ast ft 1) fs) as [os|e];
      destruct (mapR (fun field => printField (f_name field) field ast ft 1)
                  (filter (fun f0 => negb (nonNullListOfWrapped (f_type f0))) fs))
        as [os'|e']; cbn [bind] in *; try discriminate IH; try exact IH.
    injection IH as IH. destruct o; cbn [dropNull]; rewrite IH; reflexivity.
Qed.

(** X21.  A type whose name is a member of [Object.prototype], such as
    [constructor] or [toString], and which has no entry of its own in the
    tier configuration, gets no Deep fragment at all: the lookup finds the
    inherited function, which has no keys to expand. *)
Theorem prototype_named_types_get_no_deep_fragment :
  forall (E : Engine) (ast : Schema) (configs : ModelConfigs)
         (modelNames : list string) (typeName : string) (type : TypeDef)
         (fields : list string),
    In typeName objectPrototypeKeys ->
    ownProperty configs typeName = None ->
    getType ast typeName = Some type ->
    generateFragments type ast fragmentType.DEEP = Ok fields ->
    fields <> [] ->
    deepFragmentsOf E ast (Some configs) modelNames typeName = Ok (Some []).
Proof.
  intros E ast configs modelNames typeName type fields Hproto Hown Htype Hfields Hne.
  unfold deepFragmentsOf. rewrite Htype, Hfields. cbn [bind].
  destruct fields as [|f0 fields]; [contradiction|].
  rewrite (getType_name _ _ _ Htype). unfold getModelConfig. rewrite Hown.
  replace (existsb (String.eqb typeName) objectPrototypeKeys) with true; [reflexivity|].
  symmetry. apply existsb_exists. exists typeName.
  split; [exact Hproto|apply String.eqb_refl].
Qed.

Lemma prototype_named_types_get_no_deep_fragment_witness :
  deepFragmentsOf refEngine Forum.schema (Some []) [] "constructor" = Ok (Some []).
Proof.
  apply (prototype_named_types_get_no_deep_fragment refEngine Forum.schema [] []
           "constructor" Forum.constructor ["id"]).
  - left. reflexivity.
  - reflexivity.
  - reflexivity.
  - reflexivity.
  - discriminate.
Defined.

Lemma standardFragment_in_run E ast modelConfigs standard noRelations deep
    typeName type :
  collectFragments E ast modelConfigs = Ok (standard, noRelations, deep) ->
  eligible ast typeName ->
  getType ast typeName = Some type ->
  selection ast type <> [] ->
  In (mkFragment typeName
        ("fragment " ++ typeName ++ " on " ++ typeName
         ++ block (map (render fragmentType.NO_RELATIONS) (selection ast type))
         ++ Str.nl)) standard.
Proof.
  intros H Hel Htype Hsel. apply collectFragments_inv in H.
  destruct H as [names [s [n [mn [d [Hnames [Hs [-> _]]]]]]]].
  apply (In_typeNames _ _ _ Hnames) in Hel.
  destruct (mapR_In _ _ _ _ Hs Hel) as [o [Ho Hino]].
  unfold standardFragment in Ho.
  rewrite Htype, (getType_name _ _ _ Htype) in Ho.
  destruct (generateFragments type ast fragmentType.DEFAULT) as [df|] eqn:Hdf;
    [|discriminate Ho].
  pose proof (generateFragments_selection _ _ fragmentType.DEFAULT _ eq_refl Hdf) as Hdf'.
  change (spreadSuffix fragmentType.DEFAULT) with fragmentType.NO_RELATIONS in Hdf'.
  cbn [bind] in Ho. subst df. apply In_dropNull.
  destruct (map (render fragmentType.NO_RELATIONS) (selection ast type)) eqn:Hm.
  - apply map_eq_nil in Hm. contradiction.
  - injection Ho as <-. exact Hino.
Qed.

(** X22.  Spread targets are not checked against what is emitted: when a
    field of an eligible type refers to an object type without any scalar
    or enum field, the Default fragment of the former is in the run and
    spreads [...<Target>NoNesting], while the run holds no NoRelations
    fragment of the target. *)
Theorem default_fragment_may_spread_a_missing_fragment :
  forall (E : Engine) (ast : Schema) (modelConfigs : option ModelConfigs)
         (standard noRelations deep : list Fragment)
         (typeName fieldName target : string) (type targetType : TypeDef),
    collectFragments E ast modelConfigs = Ok (standard, noRelations, deep) ->
    eligible ast typeName ->
    getType ast typeName = Some type ->
    In (fieldName, Some target) (selection ast type) ->
    getType ast target = Some targetType ->
    filter (isScalarOrEnum ast) (t_fields targetType) = [] ->
    In (mkFragment typeName
          ("fragment " ++ typeName ++ " on " ++ typeName
           ++ block (map (render fragmentType.NO_RELATIONS) (selection ast type))
           ++ Str.nl)) standard
    /\ In (nestedSpread fieldName target fragmentType.NO_RELATIONS 1)
          (map (render fragmentType.NO_RELATIONS) (selection ast type))
    /\ ~ In target (map name noRelations).
Proof.
  intros E ast mc std nr deep typeName fieldName target type targetType
         H Hel Htype Hitem Htarget Hnone.
  split; [|split].
  - apply (standardFragment_in_run E ast mc std nr deep typeName type H Hel Htype).
    intro Hnil. rewrite Hnil in Hitem. contradiction.
  - apply in_map_iff. exists (fieldName, Some target). split; [reflexivity|exact Hitem].
  - intro Hin. apply collectFragments_inv in H.
    destruct H as [names [s [n [mn [d [_ [_ [_ [Hn [-> _]]]]]]]]]].
    apply in_map_iff in Hin. destruct Hin as [f [Hname Hin]].
    destruct (In_dropNull_mapR _ _ _ _ Hn Hin) as [x [_ Hx]].
    rewrite <- (noRelationsFragment_name _ _ _ Hx), Hname in Hx.
    unfold noRelationsFragment in Hx. rewrite Htarget in Hx.
    apply bind_Ok_inv in Hx. destruct Hx as [nf [Hnf Hx]].
    rewrite (generateFragments_noRelations _ _ _ Hnf), Hnone in Hx.
    discriminate Hx.
Qed.

Lemma default_fragment_may_spread_a_missing_fragment_witness :
  In (mkFragment "Thread"
        ("fragment " ++ "Thread" ++ " on " ++ "Thread"
         ++ block (map (render fragmentType.NO_RELATIONS)
                     (selection Forum.schema Forum.Thread))
         ++ Str.nl)) (fst (fst Forum.lists))
  /\ In (nestedSpread "last" "Reply" fragmentType.NO_RELATIONS 1)
        (map (render fragmentType.NO_RELATIONS) (selection Forum.schema Forum.Thread))
  /\ ~ In "Reply" (map name (snd (fst Forum.lists))).
Proof.
  apply (default_fragment_may_spread_a_missing_fragment refEngine Forum.schema
           (Some []) (fst (fst Forum.lists)) (snd (fst Forum.lists))
           (snd Forum.lists) "Thread" "last" "Reply" Forum.Thread Forum.Reply).
  - vm_compute. reflexivity.
  - unfold eligible. simpl. repeat split; try discriminate.
    exists Forum.Thread. split; reflexivity.
  - reflexivity.
  - right. left. reflexivity.
  - reflexivity.
  - reflexivity.
Defined.
